(** * Project dashboard: view-model engine and export serializer

    A shallow embedding of the table view-model of [src/app/page.tsx]
    (source classification, search and filters, the sort comparator,
    pagination, the view-state handlers) and of the export serializers of
    [src/app/components/TableToolbar.tsx] (CSV, JSON, printable HTML),
    followed by the filter options, the controls of the dashboard with
    their rendering conditions, the loading of the projects
    ([fetchProjects] and the handler of [src/app/api/projects/route.ts])
    and readers for the exported texts.

    Conventions.
    - A JavaScript string is a [string]; every [ascii] stands for one
      UTF-16 code unit, so the development covers the strings whose code
      units lie below 256 (ASCII and the Latin-1 supplement), on which
      [toLowerCase] and [trim] are closed.
    - The numeric [id] is an integer ([Z]), as the SERIAL column is.
    - [Date] parsing and locale formatting belong to the JavaScript
      runtime; they are Section variables ([Date_parse] gives the time
      value, [None] standing for NaN of an invalid date). *)

From Stdlib Require Import ZArith List String Ascii Bool Arith Lia.
From Stdlib Require Import DecimalString DecimalZ.
From Stdlib Require DecimalPos DecimalFacts.
From Stdlib Require Import QArith Qround.
From Stdlib Require Import Sorting.Sorted Sorting.Permutation.
From Stdlib Require OrderedTypeEx.
Import ListNotations.

Open Scope Z_scope.
Open Scope string_scope.

(* ================================================================== *)
(** ** The JavaScript string and number primitives the code calls     *)
(* ================================================================== *)

Module JS.

(** The code unit 0x22. *)
Definition dquote : ascii := ascii_of_nat 34.
(** The code unit 0x0A. *)
Definition newline : ascii := ascii_of_nat 10.
Definition nl : string := String newline EmptyString.

(** [!s] on a string: only the empty string is falsy. *)
Definition isEmpty (s : string) : bool :=
  match s with
  | EmptyString => true
  | String _ _ => false
  end.

(** [a || b] on strings. *)
Definition or_else (a b : string) : string :=
  if isEmpty a then b else a.

(** [s.startsWith(p)] *)
Definition startsWith (s p : string) : bool := String.prefix p s.

(** [s.endsWith(p)]: the last [length p] code units of [s] are [p]. *)
Definition endsWith (s p : string) : bool :=
  (String.length p <=? String.length s)%nat &&
  String.eqb
    (String.substring (String.length s - String.length p) (String.length p) s)
    p.

(** [s.includes(p)]: [p] occurs at some position of [s]. *)
Fixpoint includes (s p : string) : bool :=
  String.prefix p s ||
  match s with
  | EmptyString => false
  | String _ s' => includes s' p
  end.

(** Lower-casing of one code unit below 256: A-Z, and U+00C0..U+00DE
    without the multiplication sign U+00D7, move up by 32. *)
Definition lower_unit (c : ascii) : ascii :=
  let n := nat_of_ascii c in
  if ((65 <=? n) && (n <=? 90))%nat then ascii_of_nat (n + 32)
  else if ((192 <=? n) && (n <=? 222) && negb (n =? 215))%nat
       then ascii_of_nat (n + 32)
       else c.

(** [s.toLowerCase()] on a string of code units below 256, where the
    mapping works unit by unit.  On other strings the runtime function
    looks at the context (a capital sigma becomes one of two letters,
    by its place in the word) and may change the length; such strings
    have no counterpart in [string] and are not covered. *)
Fixpoint toLowerCase (s : string) : string :=
  match s with
  | EmptyString => EmptyString
  | String c s' => String (lower_unit c) (toLowerCase s')
  end.

(** White space and line terminators below 256:
    TAB, LF, VT, FF, CR, SP, NBSP. *)
Definition isWhiteSpace (c : ascii) : bool :=
  let n := nat_of_ascii c in
  ((9 <=? n) && (n <=? 13) || (n =? 32) || (n =? 160))%nat.

Fixpoint trimStart (s : string) : string :=
  match s with
  | EmptyString => EmptyString
  | String c s' => if isWhiteSpace c then trimStart s' else s
  end.

Fixpoint trimEnd (s : string) : string :=
  match s with
  | EmptyString => EmptyString
  | String c s' =>
      let r := trimEnd s' in
      if isEmpty r && isWhiteSpace c then EmptyString else String c r
  end.

(** [s.trim()] *)
Definition trim (s : string) : string := trimEnd (trimStart s).

(** [l.join(sep)] on strings. *)
Definition join (sep : string) (l : list string) : string :=
  String.concat sep l.

(** [s.replace] with the global pattern of one double quote and the
    replacement of two: every double quote is doubled. *)
Fixpoint doubleQuotes (s : string) : string :=
  match s with
  | EmptyString => EmptyString
  | String c s' =>
      if Ascii.eqb c dquote
      then String dquote (String dquote (doubleQuotes s'))
      else String c (doubleQuotes s')
  end.

(** [String(n)] for an integer [n]. *)
Definition Number_toString (n : Z) : string :=
  NilEmpty.string_of_int (Z.to_int n).

End JS.

(* ================================================================== *)
(** ** Data model                                                      *)
(* ================================================================== *)

(** [interface Project], fields in declaration order, which is also the
    column order of the SELECT behind the fetched objects. *)
Record Project : Type := mkProject {
  id : Z;
  project_name : string;
  location : string;
  project_type : string;
  stage : string;
  stakeholders : string;
  project_value : string;
  date_added : string;
  source_link : string
}.

(** The sentinel category. *)
Definition NotSpecified : string := "Not specified".

Definition TexasPrefix : string := "https://www.tdlr.texas.gov/TABS/".

(** [getSourceType] of [page.tsx]. *)
Module Page.
Definition getSourceType (sourceLink : string) : string :=
  if JS.isEmpty sourceLink then NotSpecified
  else if JS.endsWith sourceLink ".pdf" then "PDF"
  else if JS.startsWith sourceLink TexasPrefix then "Texas"
  else "Website".
End Page.

(** The copy of [getSourceType] in the export button of
    [TableToolbar.tsx]. *)
Module ExportButton.
Definition getSourceType (sourceLink : string) : string :=
  if JS.isEmpty sourceLink then NotSpecified
  else if JS.endsWith sourceLink ".pdf" then "PDF"
  else if JS.startsWith sourceLink TexasPrefix then "Texas"
  else "Website".
End ExportButton.

(** The classification as the specification words it: a relation between
    a link and its source type, the suffix rule coming before the prefix
    rule. *)
Definition has_suffix (suf s : string) : Prop := exists pre, s = pre ++ suf.
Definition has_prefix (pre s : string) : Prop := exists suf, s = pre ++ suf.

Inductive SourceTypeSpec (s : string) : string -> Prop :=
| ST_none : s = EmptyString -> SourceTypeSpec s "Not specified"
| ST_pdf : s <> EmptyString -> has_suffix ".pdf" s -> SourceTypeSpec s "PDF"
| ST_texas :
    s <> EmptyString -> ~ has_suffix ".pdf" s ->
    has_prefix "https://www.tdlr.texas.gov/TABS/" s ->
    SourceTypeSpec s "Texas"
| ST_website :
    s <> EmptyString -> ~ has_suffix ".pdf" s ->
    ~ has_prefix "https://www.tdlr.texas.gov/TABS/" s ->
    SourceTypeSpec s "Website".

(* ================================================================== *)
(** ** View-model engine ([page.tsx])                                  *)
(* ================================================================== *)

(** [keyof Project] *)
Inductive SortField : Type :=
| K_id | K_project_name | K_location | K_project_type | K_stage
| K_stakeholders | K_project_value | K_date_added | K_source_link.

Inductive SortDirection : Type := asc | desc.

(** A field value [project[key]]: the [id] is a number, every other
    field a string. *)
Inductive value : Type :=
| VNum (n : Z)
| VStr (s : string).

Definition getField (f : SortField) (p : Project) : value :=
  match f with
  | K_id => VNum (id p)
  | K_project_name => VStr (project_name p)
  | K_location => VStr (location p)
  | K_project_type => VStr (project_type p)
  | K_stage => VStr (stage p)
  | K_stakeholders => VStr (stakeholders p)
  | K_project_value => VStr (project_value p)
  | K_date_added => VStr (date_added p)
  | K_source_link => VStr (source_link p)
  end.

(** [Object.values(project)], in property order. *)
Definition Object_values (p : Project) : list value :=
  [ VNum (id p); VStr (project_name p); VStr (location p);
    VStr (project_type p); VStr (stage p); VStr (stakeholders p);
    VStr (project_value p); VStr (date_added p); VStr (source_link p) ].

Module Value.

(** Truthiness: [0] and the empty string are falsy. *)
Definition truthy (v : value) : bool :=
  match v with
  | VNum n => negb (n =? 0)%Z
  | VStr s => negb (JS.isEmpty s)
  end.

(** [v.toString()] *)
Definition toString (v : value) : string :=
  match v with
  | VNum n => JS.Number_toString n
  | VStr s => s
  end.

(** [v === s] for a string literal [s]. *)
Definition strictEqStr (v : value) (s : string) : bool :=
  match v with
  | VNum _ => false
  | VStr t => String.eqb t s
  end.

(** [v || d] for a string [d]. *)
Definition or_else (v : value) (d : string) : value :=
  if truthy v then v else VStr d.

(** [a < b]; both operands are read from the same field, so they are
    two numbers or two strings (compared code unit by code unit). *)
Definition lt (a b : value) : bool :=
  match a, b with
  | VNum x, VNum y => (x <? y)%Z
  | VStr s, VStr t => String.ltb s t
  | _, _ => false
  end.

(** [a > b] *)
Definition gt (a b : value) : bool := lt b a.

Definition isString (v : value) : bool :=
  match v with
  | VStr _ => true
  | VNum _ => false
  end.

Definition toLowerCase (v : value) : value :=
  match v with
  | VStr s => VStr (JS.toLowerCase s)
  | VNum n => VNum n
  end.

End Value.

(** The table state of the [Home] component. *)
Record ViewState : Type := mkViewState {
  searchTerm : string;
  sortField : SortField;
  sortDirection : SortDirection;
  currentPage : Z;
  itemsPerPage : Z;
  filterStage : string;
  filterType : string;
  filterSource : string
}.

(** The [useState] defaults. *)
Definition initialState : ViewState :=
  mkViewState EmptyString K_date_added desc 1 25
              EmptyString EmptyString EmptyString.

(** *** Filter predicate *)

Definition searchableValues (p : Project) : list value :=
  map (fun v => Value.or_else v NotSpecified) (Object_values p).

Definition searchableText (p : Project) : string :=
  JS.toLowerCase (JS.join " " (map Value.toString (searchableValues p))).

Definition matchesSearch (term : string) (p : Project) : bool :=
  JS.includes (searchableText p) (JS.toLowerCase term).

(** [!filter || actual === filter] *)
Definition matchesFilter (filter actual : string) : bool :=
  JS.isEmpty filter || String.eqb actual filter.

Definition matchesStage (st : ViewState) (p : Project) : bool :=
  matchesFilter (filterStage st) (JS.or_else (stage p) NotSpecified).

Definition matchesType (st : ViewState) (p : Project) : bool :=
  matchesFilter (filterType st) (JS.or_else (project_type p) NotSpecified).

Definition matchesSource (st : ViewState) (p : Project) : bool :=
  matchesFilter (filterSource st) (Page.getSourceType (source_link p)).

(** The callback of [projects.filter]. *)
Definition passes (st : ViewState) (p : Project) : bool :=
  matchesSearch (searchTerm st) p && matchesStage st p
  && matchesType st p && matchesSource st p.

Definition filtered (projects : list Project) (st : ViewState) : list Project :=
  filter (passes st) projects.

(** *** Sort *)

(** The test the comparator calls [IsNotSpecified]:
    [!v || v === "Not specified" || v.toString().trim() === ""]. *)
Definition isNotSpecified (v : value) : bool :=
  negb (Value.truthy v)
  || Value.strictEqStr v NotSpecified
  || JS.isEmpty (JS.trim (Value.toString v)).

(** [dir === "asc" ? x : y] *)
Definition ifAsc (dir : SortDirection) (x y : Z) : Z :=
  match dir with
  | asc => x
  | desc => y
  end.

(** The part of the comparator after the date block. *)
Definition compareValues (dir : SortDirection) (aVal bVal : value) : Z :=
  let aIsNotSpecified := isNotSpecified aVal in
  let bIsNotSpecified := isNotSpecified bVal in
  if aIsNotSpecified && bIsNotSpecified then 0
  else if aIsNotSpecified then ifAsc dir 1 (-1)
  else if bIsNotSpecified then ifAsc dir (-1) 1
  else
    let '(aVal, bVal) :=
      if Value.isString aVal && Value.isString bVal
      then (Value.toLowerCase aVal, Value.toLowerCase bVal)
      else (aVal, bVal) in
    if Value.lt aVal bVal then ifAsc dir (-1) 1
    else if Value.gt aVal bVal then ifAsc dir 1 (-1)
    else 0.

Section Comparator.

(** The time value of [new Date(s)]; [None] is the NaN of an invalid
    date. *)
Variable Date_parse : string -> option Z.

(** The block guarded by [sortField === "date_added"]: it either
    returns from the comparator ([inl]) or replaces both values by
    their time values ([inr]). *)
Definition dateBlock (aVal bVal : value) : Z + value * value :=
  let aIsNotSpecified := isNotSpecified aVal in
  let bIsNotSpecified := isNotSpecified bVal in
  if aIsNotSpecified && bIsNotSpecified then inl 0
  else if aIsNotSpecified then inl 1
  else if bIsNotSpecified then inl (-1)
  else
    match Date_parse (Value.toString aVal),
          Date_parse (Value.toString bVal) with
    | None, None => inl 0
    | None, Some _ => inl 1
    | Some _, None => inl (-1)
    | Some ta, Some tb => inr (VNum ta, VNum tb)
    end.

(** The callback of [filtered.sort]. *)
Definition compareProjects
           (field : SortField) (dir : SortDirection) (a b : Project) : Z :=
  let aVal := getField field a in
  let bVal := getField field b in
  match field with
  | K_date_added =>
      match dateBlock aVal bVal with
      | inl r => r
      | inr (aVal, bVal) => compareValues dir aVal bVal
      end
  | _ => compareValues dir aVal bVal
  end.

(** [Array.prototype.sort] is stable: an element moves in front of the
    elements that the comparator puts strictly after it, and stays behind
    those it ties with. *)
Fixpoint insertSorted {A : Type} (cmp : A -> A -> Z) (x : A) (l : list A)
  : list A :=
  match l with
  | [] => [x]
  | y :: l' =>
      if (cmp x y <=? 0)%Z then x :: y :: l' else y :: insertSorted cmp x l'
  end.

Fixpoint Array_sort {A : Type} (cmp : A -> A -> Z) (l : list A) : list A :=
  match l with
  | [] => []
  | x :: l' => insertSorted cmp x (Array_sort cmp l')
  end.

Definition filteredAndSortedProjects
           (projects : list Project) (st : ViewState) : list Project :=
  Array_sort (compareProjects (sortField st) (sortDirection st))
             (filtered projects st).

End Comparator.

(** The sort-field value of a record is missing when it is empty,
    white space only or the sentinel, and for [date_added] also when it
    does not parse. *)
Definition missingText (s : string) : bool :=
  JS.isEmpty s || JS.isEmpty (JS.trim s) || String.eqb s NotSpecified.

Definition missingValue (Date_parse : string -> option Z)
           (field : SortField) (p : Project) : bool :=
  match getField field p with
  | VNum _ => false
  | VStr s =>
      missingText s ||
      match field with
      | K_date_added =>
          match Date_parse s with
          | None => true
          | Some _ => false
          end
      | _ => false
      end
  end.

(** *** Pagination *)

(** [Math.ceil(n / d)] on integers: the quotient is not finite when
    [d] is [0] ([None]). *)
Definition Math_ceil_div (n d : Z) : option Z :=
  if (d =? 0)%Z then None
  else Some (Qceiling (inject_Z n / inject_Z d)%Q).

Definition totalPages {A : Type} (rows : list A) (st : ViewState) : option Z :=
  Math_ceil_div (Z.of_nat (List.length rows)) (itemsPerPage st).

(** [l.slice(start, end)], an index below zero counting from the end. *)
Definition Array_slice {A : Type} (l : list A) (start end_ : Z) : list A :=
  let len := Z.of_nat (List.length l) in
  let k := if (start <? 0)%Z then Z.max (len + start) 0 else Z.min start len in
  let final := if (end_ <? 0)%Z then Z.max (len + end_) 0 else Z.min end_ len in
  firstn (Z.to_nat (final - k)) (skipn (Z.to_nat k) l).

Definition startIndex (st : ViewState) : Z :=
  (currentPage st - 1) * itemsPerPage st.

Definition paginatedProjects {A : Type} (rows : list A) (st : ViewState)
  : list A :=
  Array_slice rows (startIndex st) (startIndex st + itemsPerPage st).

(** *** State handlers *)

Definition flipDirection (d : SortDirection) : SortDirection :=
  match d with
  | asc => desc
  | desc => asc
  end.

Definition SortField_eqb (a b : SortField) : bool :=
  match a, b with
  | K_id, K_id | K_project_name, K_project_name | K_location, K_location
  | K_project_type, K_project_type | K_stage, K_stage
  | K_stakeholders, K_stakeholders | K_project_value, K_project_value
  | K_date_added, K_date_added | K_source_link, K_source_link => true
  | _, _ => false
  end.

Definition setCurrentPage (n : Z) (st : ViewState) : ViewState :=
  mkViewState (searchTerm st) (sortField st) (sortDirection st) n
              (itemsPerPage st) (filterStage st) (filterType st)
              (filterSource st).

Definition handleSort (field : SortField) (st : ViewState) : ViewState :=
  if SortField_eqb field (sortField st)
  then mkViewState (searchTerm st) (sortField st)
                   (flipDirection (sortDirection st)) 1
                   (itemsPerPage st) (filterStage st) (filterType st)
                   (filterSource st)
  else mkViewState (searchTerm st) field asc 1
                   (itemsPerPage st) (filterStage st) (filterType st)
                   (filterSource st).

Definition handleSearch (v : string) (st : ViewState) : ViewState :=
  mkViewState v (sortField st) (sortDirection st) 1
              (itemsPerPage st) (filterStage st) (filterType st)
              (filterSource st).

(** The first argument of [handleFilter]. *)
Inductive FilterKind : Type := FStage | FType | FSource.

Definition handleFilter (type : FilterKind) (v : string) (st : ViewState)
  : ViewState :=
  match type with
  | FStage =>
      mkViewState (searchTerm st) (sortField st) (sortDirection st) 1
                  (itemsPerPage st) v (filterType st) (filterSource st)
  | FType =>
      mkViewState (searchTerm st) (sortField st) (sortDirection st) 1
                  (itemsPerPage st) (filterStage st) v (filterSource st)
  | FSource =>
      mkViewState (searchTerm st) (sortField st) (sortDirection st) 1
                  (itemsPerPage st) (filterStage st) (filterType st) v
  end.

Definition clearFilters (st : ViewState) : ViewState :=
  mkViewState EmptyString (sortField st) (sortDirection st) 1
              (itemsPerPage st) EmptyString EmptyString EmptyString.

(** The [onChange] of the page-size select. *)
Definition changeItemsPerPage (n : Z) (st : ViewState) : ViewState :=
  mkViewState (searchTerm st) (sortField st) (sortDirection st) 1
              n (filterStage st) (filterType st) (filterSource st).

(** What the user can do to the table state.  The four pagination
    buttons all call [setCurrentPage] with some page number. *)
Inductive Action : Type :=
| Sort (field : SortField)
| Search (v : string)
| Filter (type : FilterKind) (v : string)
| ClearFilters
| ItemsPerPage (n : Z)
| GoToPage (n : Z).

Definition step (a : Action) (st : ViewState) : ViewState :=
  match a with
  | Sort f => handleSort f st
  | Search v => handleSearch v st
  | Filter t v => handleFilter t v st
  | ClearFilters => clearFilters st
  | ItemsPerPage n => changeItemsPerPage n st
  | GoToPage n => setCurrentPage n st
  end.

(** The view state with one filter replaced, everything else kept. *)
Definition withFilterStage (x : string) (st : ViewState) : ViewState :=
  mkViewState (searchTerm st) (sortField st) (sortDirection st)
              (currentPage st) (itemsPerPage st)
              x (filterType st) (filterSource st).

Definition withFilterType (x : string) (st : ViewState) : ViewState :=
  mkViewState (searchTerm st) (sortField st) (sortDirection st)
              (currentPage st) (itemsPerPage st)
              (filterStage st) x (filterSource st).

Definition withFilterSource (x : string) (st : ViewState) : ViewState :=
  mkViewState (searchTerm st) (sortField st) (sortDirection st)
              (currentPage st) (itemsPerPage st)
              (filterStage st) (filterType st) x.

(** A transition changes a table control when the search term, a filter,
    the sort field, the sort direction or the page size differs
    afterwards. *)
Definition changesControls (st st' : ViewState) : Prop :=
  searchTerm st' <> searchTerm st \/
  filterStage st' <> filterStage st \/
  filterType st' <> filterType st \/
  filterSource st' <> filterSource st \/
  sortField st' <> sortField st \/
  sortDirection st' <> sortDirection st \/
  itemsPerPage st' <> itemsPerPage st.

(** *** The search text, written out field by field

    What the filter callback searches, stated without the code's own
    definitions: the nine field values in property order, the id in
    decimal, a falsy value (an id of 0, an empty text) replaced by the
    sentinel, one space between neighbours.  The callback lower-cases
    this text and the term and looks for the one in the other. *)
Definition orSentinel (s : string) : string :=
  match s with
  | EmptyString => "Not specified"
  | String _ _ => s
  end.

Definition idOrSentinel (n : Z) : string :=
  if (n =? 0)%Z then "Not specified" else JS.Number_toString n.

Definition searchedText (p : Project) : string :=
  idOrSentinel (id p) ++ " " ++ orSentinel (project_name p) ++ " "
  ++ orSentinel (location p) ++ " " ++ orSentinel (project_type p) ++ " "
  ++ orSentinel (stage p) ++ " " ++ orSentinel (stakeholders p) ++ " "
  ++ orSentinel (project_value p) ++ " " ++ orSentinel (date_added p) ++ " "
  ++ orSentinel (source_link p).

(** *** The specification's wording

    The sentinel rule of the specification (a field that is absent,
    empty or made of white space only counts as the sentinel) and the
    search condition as the specification words it: the concatenation of
    the substituted values of all fields contains the term, letter case
    apart. *)
Module Spec.

Definition sentinel (s : string) : string :=
  if JS.isEmpty (JS.trim s) then "Not specified" else s.

Definition concatenation (p : Project) : string :=
  sentinel (JS.Number_toString (id p)) ++ sentinel (project_name p)
  ++ sentinel (location p) ++ sentinel (project_type p)
  ++ sentinel (stage p) ++ sentinel (stakeholders p)
  ++ sentinel (project_value p) ++ sentinel (date_added p)
  ++ sentinel (source_link p).

Definition searchCondition (term : string) (p : Project) : bool :=
  JS.includes (JS.toLowerCase (concatenation p)) (JS.toLowerCase term).

End Spec.

(** Two projects that differ in the [stage] only, and the state reached
    from the defaults by clicking the Stage column header twice. *)
Definition bridgeProject : Project :=
  mkProject 1 "Bridge repair" "Austin" "Road" "Approved" "Acme Corp"
            "$1,000,000" "2024-01-05" "https://example.com/bridge".

Definition depotProject : Project :=
  mkProject 2 "Depot" "Dallas" "Rail" EmptyString "Rail Co"
            "$2,000,000" "2024-03-01" "https://example.com/depot.pdf".

(** A project whose name is three spaces. *)
Definition blankNameProject : Project :=
  mkProject 6 "   " "Laredo" "Port" "Approved" "Port Authority"
            "$6,000,000" "2024-02-10" "https://example.com/port".

Definition stageDescState : ViewState :=
  step (Sort K_stage) (step (Sort K_stage) initialState).

(* ================================================================== *)
(** ** Export serializer ([TableToolbar.tsx], export button)           *)
(* ================================================================== *)

(** One double quote, as a string. *)
Definition q : string := String JS.dquote EmptyString.

(** [n] spaces of template indentation. *)
Fixpoint sp (n : nat) : string :=
  match n with
  | O => EmptyString
  | S n' => String " "%char (sp n')
  end.

Definition csvHeaders : list string :=
  [ "ID"; "Project Name"; "Location"; "Project Type"; "Stage";
    "Stakeholders"; "Project Value"; "Source Link"; "Date Added" ].

(** A text field of a CSV row: the template literal that wraps
    [(field || "Not specified")] with its quotes doubled in a pair of
    double quotes. *)
Definition csvField (field : string) : string :=
  q ++ JS.doubleQuotes (JS.or_else field NotSpecified) ++ q.

Definition htmlHeaderCells : list string :=
  [ "Project Name"; "Location"; "Type"; "Stage"; "Stakeholders";
    "Project Value"; "Source Link"; "Date Added" ].

(** The class of the stage badge. *)
Definition stageClass (stage : string) : string :=
  if JS.includes (JS.toLowerCase (JS.or_else stage EmptyString)) "approved"
  then "stage-approved"
  else if JS.includes (JS.toLowerCase (JS.or_else stage EmptyString)) "proposed"
       then "stage-proposed"
       else "stage-default".

(** The content of the source-link cell. *)
Definition linkCell (link : string) : string :=
  if JS.isEmpty link then NotSpecified
  else "<a href=" ++ q ++ link ++ q ++ " class=" ++ q ++ "source-link" ++ q
       ++ " target=" ++ q ++ "_blank" ++ q ++ ">"
       ++ ExportButton.getSourceType link ++ "</a>".

Section Serializer.

Variable Date_parse : string -> option Z.
(** [date.toLocaleDateString()] of the date with the given time
    value. *)
Variable toLocaleDateString : Z -> string.

(** The immediately invoked function that renders [date_added], in the
    CSV row and in the HTML row alike. *)
Definition dateCell (date_added : string) : string :=
  if JS.isEmpty date_added || JS.isEmpty (JS.trim date_added)
  then NotSpecified
  else match Date_parse date_added with
       | None => NotSpecified
       | Some t => toLocaleDateString t
       end.

Definition csvRow (project : Project) : string :=
  JS.join ","
    [ JS.Number_toString (id project);
      csvField (project_name project);
      csvField (location project);
      csvField (project_type project);
      csvField (stage project);
      csvField (stakeholders project);
      csvField (project_value project);
      csvField (source_link project);
      dateCell (date_added project) ].

Definition convertToCSV (data : list Project) : string :=
  JS.join JS.nl (JS.join "," csvHeaders :: map csvRow data).

(** The contents of the [<td>] elements of one body row of the HTML
    report, in template order. *)
Definition htmlRowCells (project : Project) : list string :=
  [ JS.Number_toString (id project);
    JS.or_else (project_name project) NotSpecified;
    JS.or_else (location project) NotSpecified;
    JS.or_else (project_type project) NotSpecified;
    JS.nl ++ sp 24 ++ "<span class=" ++ q ++ stageClass (stage project) ++ q
      ++ ">" ++ JS.nl ++ sp 28 ++ JS.or_else (stage project) NotSpecified
      ++ JS.nl ++ sp 24 ++ "</span>" ++ JS.nl ++ sp 20;
    JS.or_else (stakeholders project) NotSpecified;
    JS.or_else (project_value project) NotSpecified;
    JS.nl ++ sp 24 ++ linkCell (source_link project) ++ JS.nl ++ sp 20;
    dateCell (date_added project) ].

(** The row template of [exportToPrintableHTML]. *)
Definition htmlRow (project : Project) : string :=
  JS.nl ++ sp 16 ++ "<tr>"
  ++ String.concat EmptyString
       (map (fun c => JS.nl ++ sp 20 ++ "<td>" ++ c ++ "</td>")
            (htmlRowCells project))
  ++ JS.nl ++ sp 16 ++ "</tr>" ++ JS.nl ++ sp 12.

(** The [<table>] of the report: the fixed header row, then the rows
    joined by the empty string. *)
Definition htmlTable (data : list Project) : string :=
  sp 4 ++ "<table>" ++ JS.nl ++ sp 8 ++ "<thead>" ++ JS.nl
  ++ sp 12 ++ "<tr>"
  ++ String.concat EmptyString
       (map (fun h => JS.nl ++ sp 16 ++ "<th>" ++ h ++ "</th>")
            htmlHeaderCells)
  ++ JS.nl ++ sp 12 ++ "</tr>" ++ JS.nl ++ sp 8 ++ "</thead>" ++ JS.nl
  ++ sp 8 ++ "<tbody>" ++ JS.nl ++ sp 12
  ++ JS.join EmptyString (map htmlRow data)
  ++ JS.nl ++ sp 8 ++ "</tbody>" ++ JS.nl ++ sp 4 ++ "</table>".

End Serializer.

(** Reading a quoted CSV field back, the way a CSV reader does: after the
    opening quote, two quotes in a row stand for one, and a single quote
    closes the field.  The result is the field and the text after it. *)
Fixpoint readQuotedTail (s : string) : option (string * string) :=
  match s with
  | EmptyString => None
  | String c s' =>
      if Ascii.eqb c JS.dquote then
        match s' with
        | String d s'' =>
            if Ascii.eqb d JS.dquote
            then match readQuotedTail s'' with
                 | Some (f, r) => Some (String JS.dquote f, r)
                 | None => None
                 end
            else Some (EmptyString, s')
        | EmptyString => Some (EmptyString, EmptyString)
        end
      else match readQuotedTail s' with
           | Some (f, r) => Some (String c f, r)
           | None => None
           end
  end.

Definition readQuoted (s : string) : option (string * string) :=
  match s with
  | String c s' => if Ascii.eqb c JS.dquote then readQuotedTail s' else None
  | EmptyString => None
  end.

(** The text after a quoted field does not go on with a quote: it is
    empty or starts with a separator. *)
Definition startsWithQuote (s : string) : bool :=
  match s with
  | String c _ => Ascii.eqb c JS.dquote
  | EmptyString => false
  end.

(** A sample runtime, for examples: [Date_parse] of the date-only
    form YYYY-MM-DD (read as UTC midnight), and the en-US rendering
    M/D/YYYY of a time value in the UTC zone. *)
Module Sample.

Definition digit (c : ascii) : option Z :=
  let n := nat_of_ascii c in
  if ((48 <=? n) && (n <=? 57))%nat then Some (Z.of_nat (n - 48)) else None.

Definition daysFromCivil (y m d : Z) : Z :=
  let y' := if (m <=? 2)%Z then y - 1 else y in
  let era := y' / 400 in
  let yoe := y' - era * 400 in
  let mp := if (m >? 2)%Z then m - 3 else m + 9 in
  let doy := (153 * mp + 2) / 5 + d - 1 in
  let doe := yoe * 365 + yoe / 4 - yoe / 100 + doy in
  era * 146097 + doe - 719468.

Definition civilFromDays (z : Z) : Z * Z * Z :=
  let z := z + 719468 in
  let era := z / 146097 in
  let doe := z - era * 146097 in
  let yoe := (doe - doe / 1460 + doe / 36524 - doe / 146096) / 365 in
  let doy := doe - (365 * yoe + yoe / 4 - yoe / 100) in
  let mp := (5 * doy + 2) / 153 in
  let d := doy - (153 * mp + 2) / 5 + 1 in
  let m := if (mp <? 10)%Z then mp + 3 else mp - 9 in
  let y := yoe + era * 400 + (if (m <=? 2)%Z then 1 else 0) in
  (y, m, d).

Definition msPerDay : Z := 86400000.

Definition Date_parse (s : string) : option Z :=
  match s with
  | String y1 (String y2 (String y3 (String y4 (String "-"
      (String m1 (String m2 (String "-"
        (String d1 (String d2 EmptyString))))))))) =>
      match digit y1, digit y2, digit y3, digit y4,
            digit m1, digit m2, digit d1, digit d2 with
      | Some a, Some b, Some c, Some d, Some e, Some f, Some g, Some h =>
          let y := 1000 * a + 100 * b + 10 * c + d in
          let m := 10 * e + f in
          let dd := 10 * g + h in
          if ((1 <=? m) && (m <=? 12) && (1 <=? dd) && (dd <=? 31))%Z
          then Some (daysFromCivil y m dd * msPerDay)
          else None
      | _, _, _, _, _, _, _, _ => None
      end
  | _ => None
  end.

Definition toLocaleDateString (t : Z) : string :=
  let '(y, m, d) := civilFromDays (t / msPerDay) in
  JS.Number_toString m ++ "/" ++ JS.Number_toString d ++ "/"
  ++ JS.Number_toString y.

End Sample.

(** The number of positions of [s] at which [needle] starts. *)
Fixpoint occurrences (needle s : string) : nat :=
  match s with
  | EmptyString => O
  | String _ s' =>
      ((if String.prefix needle s then 1 else 0) + occurrences needle s')%nat
  end.

(** The header line of the CSV export, as the specification gives it. *)
Definition csvHeaderLine : string :=
  "ID,Project Name,Location,Project Type,Stage,Stakeholders,Project Value,Source Link,Date Added".

(** The CSV export as the specification words it: the header line,
    then one line per project with the bare id, the seven text fields
    (substituted by the sentinel rule of the specification, quotes
    doubled, wrapped in quotes) and the date (its locale rendering when
    it parses, the sentinel otherwise). *)
Module SpecExport.

Section Csv.

Variable Date_parse : string -> option Z.
Variable toLocaleDateString : Z -> string.

Definition csvField (field : string) : string :=
  q ++ JS.doubleQuotes (Spec.sentinel field) ++ q.

Definition dateCell (date_added : string) : string :=
  match Date_parse date_added with
  | Some t => toLocaleDateString t
  | None => "Not specified"
  end.

Definition csvRow (p : Project) : string :=
  JS.Number_toString (id p)
  ++ "," ++ csvField (project_name p)
  ++ "," ++ csvField (location p)
  ++ "," ++ csvField (project_type p)
  ++ "," ++ csvField (stage p)
  ++ "," ++ csvField (stakeholders p)
  ++ "," ++ csvField (project_value p)
  ++ "," ++ csvField (source_link p)
  ++ "," ++ dateCell (date_added p).

Definition convertToCSV (data : list Project) : string :=
  csvHeaderLine
  ++ String.concat EmptyString (map (fun p => JS.nl ++ csvRow p) data).

End Csv.

End SpecExport.

(* ================================================================== *)
(** ** JSON: [JSON.stringify(data, null, 2)] and [JSON.parse]          *)
(* ================================================================== *)

Module JSON.

(** JSON values; numbers are the integers, an object is its members in
    insertion order. *)
#[warnings="-register-all"]
Inductive value : Type :=
| Null
| Bool (b : bool)
| Num (n : Z)
| Str (s : string)
| Arr (elements : list value)
| Obj (members : list (string * value)).

Definition backslash : ascii := ascii_of_nat 92.

(** The indentation unit of the third argument [2]. *)
Definition gap : string := "  ".

Definition hexDigit (n : nat) : ascii :=
  if (n <? 10)%nat then ascii_of_nat (48 + n) else ascii_of_nat (87 + n).

(** QuoteJSONString on one code unit below 256: the short escapes, the
    u-escape for the other control codes, the unit itself otherwise. *)
Definition quoteUnit (c : ascii) : string :=
  let n := nat_of_ascii c in
  if (n =? 8)%nat then String backslash "b"
  else if (n =? 9)%nat then String backslash "t"
  else if (n =? 10)%nat then String backslash "n"
  else if (n =? 12)%nat then String backslash "f"
  else if (n =? 13)%nat then String backslash "r"
  else if (n =? 34)%nat then String backslash q
  else if (n =? 92)%nat then String backslash (String backslash EmptyString)
  else if (n <? 32)%nat
       then String backslash
              (String "u" (String "0" (String "0"
                 (String (hexDigit (n / 16))
                    (String (hexDigit (n mod 16)) EmptyString)))))
       else String c EmptyString.

Fixpoint quoteBody (s : string) : string :=
  match s with
  | EmptyString => EmptyString
  | String c s' => quoteUnit c ++ quoteBody s'
  end.

Definition quoteJSONString (s : string) : string :=
  q ++ quoteBody s ++ q.

(** SerializeJSONProperty with a non-empty gap: [indent] is the
    indentation of the enclosing line. *)
Fixpoint serialize (indent : string) (v : value) : string :=
  match v with
  | Null => "null"
  | Bool true => "true"
  | Bool false => "false"
  | Num n => JS.Number_toString n
  | Str s => quoteJSONString s
  | Arr elements =>
      match elements with
      | [] => "[]"
      | _ :: _ =>
          "[" ++ JS.nl ++ (indent ++ gap)
          ++ JS.join ("," ++ JS.nl ++ (indent ++ gap))
               (map (serialize (indent ++ gap)) elements)
          ++ JS.nl ++ indent ++ "]"
      end
  | Obj members =>
      match members with
      | [] => "{}"
      | _ :: _ =>
          "{" ++ JS.nl ++ (indent ++ gap)
          ++ JS.join ("," ++ JS.nl ++ (indent ++ gap))
               (map (fun m => quoteJSONString (fst m) ++ ": "
                              ++ serialize (indent ++ gap) (snd m))
                    members)
          ++ JS.nl ++ indent ++ "}"
      end
  end.

(** [JSON.stringify(v, null, 2)] *)
Definition stringify (v : value) : string := serialize EmptyString v.

(** *** [JSON.parse] *)

(** JSON white space: space, tab, line feed, carriage return. *)
Definition isWs (c : ascii) : bool :=
  let n := nat_of_ascii c in
  ((n =? 32) || (n =? 9) || (n =? 10) || (n =? 13))%nat.

Fixpoint skipWs (s : string) : string :=
  match s with
  | EmptyString => EmptyString
  | String c s' => if isWs c then skipWs s' else s
  end.

Definition hexValue (c : ascii) : option nat :=
  let n := nat_of_ascii c in
  if ((48 <=? n) && (n <=? 57))%nat then Some (n - 48)%nat
  else if ((97 <=? n) && (n <=? 102))%nat then Some (n - 87)%nat
  else if ((65 <=? n) && (n <=? 70))%nat then Some (n - 55)%nat
  else None.

Definition hex4 (a b c d : ascii) : option nat :=
  match hexValue a, hexValue b, hexValue c, hexValue d with
  | Some x, Some y, Some z, Some w =>
      Some (((x * 16 + y) * 16 + z) * 16 + w)%nat
  | _, _, _, _ => None
  end.

(** The code unit a one-letter escape stands for. *)
Definition unescape (e : ascii) : option ascii :=
  let n := nat_of_ascii e in
  if (n =? 34)%nat then Some JS.dquote
  else if (n =? 92)%nat then Some backslash
  else if (n =? 47)%nat then Some "/"%char
  else if (n =? 98)%nat then Some (ascii_of_nat 8)
  else if (n =? 102)%nat then Some (ascii_of_nat 12)
  else if (n =? 110)%nat then Some (ascii_of_nat 10)
  else if (n =? 114)%nat then Some (ascii_of_nat 13)
  else if (n =? 116)%nat then Some (ascii_of_nat 9)
  else None.

Definition consUnit (c : ascii) (r : option (string * string))
  : option (string * string) :=
  match r with
  | Some (t, rest) => Some (String c t, rest)
  | None => None
  end.

(** The characters of a string after its opening quote, up to the
    closing quote; raw control codes are refused, and a u-escape from
    256 on is outside the code units covered here. *)
Fixpoint parseChars (s : string) : option (string * string) :=
  match s with
  | EmptyString => None
  | String c s1 =>
      if Ascii.eqb c JS.dquote then Some (EmptyString, s1)
      else if Ascii.eqb c backslash then
        match s1 with
        | EmptyString => None
        | String e s2 =>
            match unescape e with
            | Some u => consUnit u (parseChars s2)
            | None =>
                if Ascii.eqb e "u" then
                  match s2 with
                  | String h1 (String h2 (String h3 (String h4 s3))) =>
                      match hex4 h1 h2 h3 h4 with
                      | Some n =>
                          if (n <? 256)%nat
                          then consUnit (ascii_of_nat n) (parseChars s3)
                          else None
                      | None => None
                      end
                  | _ => None
                  end
                else None
            end
        end
      else if (nat_of_ascii c <? 32)%nat then None
      else consUnit c (parseChars s1)
  end.

Definition isDigit (c : ascii) : bool :=
  let n := nat_of_ascii c in
  ((48 <=? n) && (n <=? 57))%nat.

Fixpoint spanDigits (s : string) : string * string :=
  match s with
  | EmptyString => (EmptyString, EmptyString)
  | String c s' =>
      if isDigit c
      then let '(d, r) := spanDigits s' in (String c d, r)
      else (EmptyString, s)
  end.

(** The text after an integer goes on as a number when it starts with
    a fraction or an exponent. *)
Definition continuesNumber (s : string) : bool :=
  match s with
  | EmptyString => false
  | String c _ =>
      Ascii.eqb c "." || Ascii.eqb c "e" || Ascii.eqb c "E"
  end.

Definition parseDigits (neg : bool) (s : string) : option (Z * string) :=
  let '(ds, rest) := spanDigits s in
  match ds with
  | EmptyString => None
  | String c ds' =>
      if Ascii.eqb c "0" && negb (JS.isEmpty ds') then None
      else if continuesNumber rest then None
      else match NilEmpty.uint_of_string ds with
           | Some u =>
               Some (if neg then (- Z.of_uint u)%Z else Z.of_uint u, rest)
           | None => None
           end
  end.

(** A JSON number that is an integer: an optional minus sign, then
    digits without a leading zero. *)
Definition parseNumber (s : string) : option (Z * string) :=
  match s with
  | EmptyString => None
  | String c s' =>
      if Ascii.eqb c "-" then parseDigits true s' else parseDigits false s
  end.

Fixpoint stripPrefix (p s : string) : option string :=
  match p, s with
  | EmptyString, _ => Some s
  | String a p', String b s' =>
      if Ascii.eqb a b then stripPrefix p' s' else None
  | String _ _, EmptyString => None
  end.

Definition withRest {A B : Type} (f : A -> B) (r : option (A * string))
  : option (B * string) :=
  match r with
  | Some (a, rest) => Some (f a, rest)
  | None => None
  end.

Definition parseLiteral (s : string) : option (value * string) :=
  match stripPrefix "null" s with
  | Some r => Some (Null, r)
  | None =>
      match stripPrefix "true" s with
      | Some r => Some (Bool true, r)
      | None =>
          match stripPrefix "false" s with
          | Some r => Some (Bool false, r)
          | None => withRest Num (parseNumber s)
          end
      end
  end.

(** The recursive descent, every call spending one unit of [fuel]. *)
Fixpoint parseValue (fuel : nat) (s : string) {struct fuel}
  : option (value * string) :=
  match fuel with
  | O => None
  | S fuel' =>
      match skipWs s with
      | EmptyString => None
      | String c s1 =>
          if Ascii.eqb c JS.dquote then withRest Str (parseChars s1)
          else if Ascii.eqb c "[" then
            match skipWs s1 with
            | EmptyString => None
            | String d r =>
                if Ascii.eqb d "]" then Some (Arr [], r)
                else withRest Arr (parseElements fuel' s1)
            end
          else if Ascii.eqb c "{" then
            match skipWs s1 with
            | EmptyString => None
            | String d r =>
                if Ascii.eqb d "}" then Some (Obj [], r)
                else withRest Obj (parseMembers fuel' s1)
            end
          else parseLiteral (String c s1)
      end
  end

with parseElements (fuel : nat) (s : string) {struct fuel}
  : option (list value * string) :=
  match fuel with
  | O => None
  | S fuel' =>
      match parseValue fuel' s with
      | None => None
      | Some (v, r) =>
          match skipWs r with
          | EmptyString => None
          | String c r' =>
              if Ascii.eqb c "," then withRest (cons v) (parseElements fuel' r')
              else if Ascii.eqb c "]" then Some ([v], r')
              else None
          end
      end
  end

with parseMembers (fuel : nat) (s : string) {struct fuel}
  : option (list (string * value) * string) :=
  match fuel with
  | O => None
  | S fuel' =>
      match skipWs s with
      | EmptyString => None
      | String c s1 =>
          if Ascii.eqb c JS.dquote then
            match parseChars s1 with
            | None => None
            | Some (k, s2) =>
                match skipWs s2 with
                | EmptyString => None
                | String d s3 =>
                    if Ascii.eqb d ":" then
                      match parseValue fuel' s3 with
                      | None => None
                      | Some (v, r) =>
                          match skipWs r with
                          | EmptyString => None
                          | String e r' =>
                              if Ascii.eqb e ","
                              then withRest (cons (k, v))
                                            (parseMembers fuel' r')
                              else if Ascii.eqb e "}"
                                   then Some ([(k, v)], r')
                                   else None
                          end
                      end
                    else None
                end
            end
          else None
      end
  end.

(** [JSON.parse(text)]: one value, then nothing but white space.  The
    length of the text is fuel enough, every call reading at least one
    character. *)
Definition parse (text : string) : option value :=
  match parseValue (S (String.length text)) text with
  | Some (v, rest) =>
      if JS.isEmpty (skipWs rest) then Some v else None
  | None => None
  end.

(** Property access on a parsed object: the last member with the key
    wins. *)
Fixpoint get (key : string) (members : list (string * value))
  : option value :=
  match members with
  | [] => None
  | (k, v) :: members' =>
      match get key members' with
      | Some v' => Some v'
      | None => if String.eqb k key then Some v else None
      end
  end.

End JSON.

(** A project as the JSON value [JSON.stringify] sees: the raw fields,
    in property order. *)
Definition Project_toJSON (p : Project) : JSON.value :=
  JSON.Obj
    [ ("id", JSON.Num (id p));
      ("project_name", JSON.Str (project_name p));
      ("location", JSON.Str (location p));
      ("project_type", JSON.Str (project_type p));
      ("stage", JSON.Str (stage p));
      ("stakeholders", JSON.Str (stakeholders p));
      ("project_value", JSON.Str (project_value p));
      ("date_added", JSON.Str (date_added p));
      ("source_link", JSON.Str (source_link p)) ].

(** [jsonContent] of [exportToJSON]. *)
Definition jsonContent (data : list Project) : string :=
  JSON.stringify (JSON.Arr (map Project_toJSON data)).

(** Reading a parsed value back as a project, field by field. *)
Definition getNum (key : string) (members : list (string * JSON.value))
  : option Z :=
  match JSON.get key members with
  | Some (JSON.Num n) => Some n
  | _ => None
  end.

Definition getStr (key : string) (members : list (string * JSON.value))
  : option string :=
  match JSON.get key members with
  | Some (JSON.Str s) => Some s
  | _ => None
  end.

Definition Project_ofJSON (v : JSON.value) : option Project :=
  match v with
  | JSON.Obj ms =>
      match getNum "id" ms, getStr "project_name" ms, getStr "location" ms,
            getStr "project_type" ms, getStr "stage" ms,
            getStr "stakeholders" ms, getStr "project_value" ms,
            getStr "date_added" ms, getStr "source_link" ms with
      | Some a, Some b, Some c, Some d, Some e, Some f, Some g, Some h, Some i =>
          Some (mkProject a b c d e f g h i)
      | _, _, _, _, _, _, _, _, _ => None
      end
  | _ => None
  end.

Fixpoint allSome {A : Type} (l : list (option A)) : option (list A) :=
  match l with
  | [] => Some []
  | Some x :: l' =>
      match allSome l' with
      | Some xs => Some (x :: xs)
      | None => None
      end
  | None :: _ => None
  end.

(** Parsing an exported text back into projects. *)
Definition parseProjects (text : string) : option (list Project) :=
  match JSON.parse text with
  | Some (JSON.Arr l) => allSome (map Project_ofJSON l)
  | _ => None
  end.

(** Text made of JSON white space only. *)
Fixpoint allWs (s : string) : bool :=
  match s with
  | EmptyString => true
  | String c s' => JSON.isWs c && allWs s'
  end.

(** The text after a serialized value never goes on with a digit, a
    fraction or an exponent: it is empty or starts with a separator. *)
Definition endsValue (rest : string) : bool :=
  match rest with
  | EmptyString => true
  | String c _ => negb (JSON.isDigit c) && negb (JSON.continuesNumber rest)
  end.

(** A serialized value is read back with any fuel from [F] on, after any
    white space and before any text that ends a value. *)
Definition readsBack (F : nat) (indent : string) (v : JSON.value) : Prop :=
  forall (f : nat) (w rest : string),
    (F <= f)%nat -> allWs w = true -> endsValue rest = true ->
    JSON.parseValue f (w ++ JSON.serialize indent v ++ rest) = Some (v, rest).

(** A value text opens as a number with a digit or a minus sign. *)
Definition opensNumber (c : ascii) : bool :=
  JSON.isDigit c || Ascii.eqb c "-".

(* ================================================================== *)
(** ** Filter options and the filter banner ([page.tsx])               *)
(* ================================================================== *)

(** [new Set(values)] adds the values in turn, a value that is already
    in the set is not added again; [Array.from] lists the set in
    insertion order. *)
Definition Set_add (acc : list string) (x : string) : list string :=
  if existsb (String.eqb x) acc then acc else (acc ++ [x])%list.

Definition Set_from (values : list string) : list string :=
  fold_left Set_add values [].

(** The comparison [sort()] uses without a callback: strings by their
    code units. *)
Definition defaultCompare (x y : string) : Z :=
  if String.ltb x y then -1 else if String.ltb y x then 1 else 0.

Definition uniqueStages (projects : list Project) : list string :=
  Array_sort defaultCompare
    (Set_from (map (fun p => JS.or_else (stage p) NotSpecified) projects)).

Definition uniqueTypes (projects : list Project) : list string :=
  Array_sort defaultCompare
    (Set_from (map (fun p => JS.or_else (project_type p) NotSpecified)
                   projects)).

Definition uniqueSourceTypes (projects : list Project) : list string :=
  Array_sort defaultCompare
    (Set_from (map (fun p => Page.getSourceType (source_link p)) projects)).

(** The condition that renders the banner of active filters with its
    clear button: [searchTerm || filterStage || filterType ||
    filterSource]. *)
Definition hasActiveFilters (st : ViewState) : bool :=
  negb (JS.isEmpty (searchTerm st)) || negb (JS.isEmpty (filterStage st))
  || negb (JS.isEmpty (filterType st)) || negb (JS.isEmpty (filterSource st)).

(** The order a comparator induces: [a] may stand before [b]. *)
Definition notAfter {A : Type} (cmp : A -> A -> Z) (a b : A) : Prop :=
  cmp a b <= 0.

(** Three more sample projects: one without a date, one with a date that
    does not parse, one dated at the epoch. *)
Definition undatedProject : Project :=
  mkProject 3 "Plant" "Houston" "Water" "Proposed" "City" "$3,000,000"
            EmptyString "https://www.tdlr.texas.gov/TABS/plant".

Definition misdatedProject : Project :=
  mkProject 4 "Tower" "El Paso" "Telecom" "Planning" "Tel Co" "$4,000,000"
            "soon" EmptyString.

Definition epochProject : Project :=
  mkProject 5 "Archive" "Waco" "Library" "Completed" "County" "$5,000"
            "1970-01-01" "https://example.com/archive".

(* ================================================================== *)
(** ** The controls of the dashboard ([page.tsx], JSX)                 *)
(* ================================================================== *)

Definition ITEMS_PER_PAGE_OPTIONS : list Z := [10; 25; 50; 100].

(** The keys of the column headers of the table. *)
Definition headerKeys : list SortField :=
  [ K_project_name; K_location; K_project_type; K_stage; K_stakeholders;
    K_source_link; K_project_value; K_date_added ].

(** The rows of page [n]. *)
Definition pageRows {A : Type} (rows : list A) (st : ViewState) (n : Z)
  : list A :=
  paginatedProjects rows (setCurrentPage n st).

(** The range of the footer line, Showing [from]-[to] of [n] results. *)
Definition showingFrom (st : ViewState) : Z := startIndex st + 1.

Definition showingTo {A : Type} (rows : list A) (st : ViewState) : Z :=
  Z.min (startIndex st + itemsPerPage st) (Z.of_nat (List.length rows)).

Section Dashboard.

Variable Date_parse : string -> option Z.
(** The fetched list, fixed between two refreshes. *)
Variable projects : list Project.

Definition viewRows (st : ViewState) : list Project :=
  filteredAndSortedProjects Date_parse projects st.

(** The table, its headers and the pagination are rendered when the view
    has rows; the empty state otherwise. *)
Definition tableShown (st : ViewState) : bool :=
  negb (List.length (viewRows st) =? 0)%nat.

(** [totalPages > 1]; with a page size of 0 the quotient is Infinity, or
    NaN when there are no rows. *)
Definition moreThanOnePage (st : ViewState) : bool :=
  match totalPages (viewRows st) st with
  | Some k => (1 <? k)%Z
  | None => negb (List.length (viewRows st) =? 0)%nat
  end.

Definition paginationShown (st : ViewState) : bool :=
  tableShown st && moreThanOnePage st.

(** [currentPage === totalPages] *)
Definition onLastPage (st : ViewState) : bool :=
  match totalPages (viewRows st) st with
  | Some k => (currentPage st =? k)%Z
  | None => false
  end.

(** A clear button is rendered in the banner of active filters, and in
    the empty state when there are projects at all. *)
Definition clearShown (st : ViewState) : bool :=
  hasActiveFilters st
  || (negb (tableShown st) && negb (List.length projects =? 0)%nat).

(** The values a filter select can emit: the empty value of its first
    entry and its options. *)
Definition filterOptions (type : FilterKind) : list string :=
  EmptyString ::
  match type with
  | FStage => uniqueStages projects
  | FType => uniqueTypes projects
  | FSource => uniqueSourceTypes projects
  end.

Inductive Control : Type :=
| ClickHeader (key : SortField)
| TypeSearch (value : string)
| SelectFilter (type : FilterKind) (value : string)
| ClickClear
| SelectPageSize (n : Z)
| ClickFirst
| ClickPrevious
| ClickNext
| ClickLast.

(** The state after using a control; [None] when the control is not
    rendered, is disabled or does not offer the value. *)
Definition click (c : Control) (st : ViewState) : option ViewState :=
  match c with
  | ClickHeader key =>
      if tableShown st && existsb (SortField_eqb key) headerKeys
      then Some (handleSort key st) else None
  | TypeSearch value => Some (handleSearch value st)
  | SelectFilter type value =>
      if existsb (String.eqb value) (filterOptions type)
      then Some (handleFilter type value st) else None
  | ClickClear => if clearShown st then Some (clearFilters st) else None
  | SelectPageSize n =>
      if paginationShown st && existsb (Z.eqb n) ITEMS_PER_PAGE_OPTIONS
      then Some (changeItemsPerPage n st) else None
  | ClickFirst =>
      if paginationShown st && negb (currentPage st =? 1)%Z
      then Some (setCurrentPage 1 st) else None
  | ClickPrevious =>
      if paginationShown st && negb (currentPage st =? 1)%Z
      then Some (setCurrentPage (currentPage st - 1) st) else None
  | ClickNext =>
      if paginationShown st && negb (onLastPage st)
      then Some (setCurrentPage (currentPage st + 1) st) else None
  | ClickLast =>
      if paginationShown st && negb (onLastPage st)
      then match totalPages (viewRows st) st with
           | Some k => Some (setCurrentPage k st)
           | None => None
           end
      else None
  end.

(** The states a session reaches from the defaults. *)
Inductive reachable : ViewState -> Prop :=
| reach_initial : reachable initialState
| reach_click (c : Control) (st st' : ViewState) :
    reachable st -> click c st = Some st' -> reachable st'.

(** What every reachable state satisfies. *)
Definition pageInRange (st : ViewState) : Prop :=
  1 <= currentPage st /\
  In (itemsPerPage st) ITEMS_PER_PAGE_OPTIONS /\
  In (sortField st) headerKeys /\
  (currentPage st = 1 \/
   exists k, totalPages (viewRows st) st = Some k /\ currentPage st <= k).

End Dashboard.

(* ================================================================== *)
(** ** Loading the projects ([api/projects/route.ts], [fetchProjects]) *)
(* ================================================================== *)

Module Api.

(** What an awaited call gives: a value, or an exception. *)
Inductive Outcome (A : Type) : Type :=
| Returned (a : A)
| Threw.
Arguments Returned {A} a.
Arguments Threw {A}.

Inductive Body : Type :=
| ErrorBody (error : string)
| RowsBody (rows : list Project).

Record Response : Type := mkResponse { status : Z; body : Body }.

(** What the handler does besides answering. *)
Inductive Event : Type :=
| CalledAuth
| ReachedDatabase
| LoggedError.

(** [!v] on a string that may be absent. *)
Definition absent (v : option string) : bool :=
  match v with
  | None => true
  | Some s => JS.isEmpty s
  end.

Definition failed : Response :=
  mkResponse 500 (ErrorBody "Failed to fetch projects from database").

(** [GET]: [auth] is what [auth()] gives for the user id,
    [DATABASE_URL] the environment variable, [select] what opening the
    database and running the SELECT gives. *)
Definition GET (auth : Outcome (option string)) (DATABASE_URL : option string)
           (select : Outcome (list Project)) : Response * list Event :=
  match auth with
  | Threw => (failed, [CalledAuth; LoggedError])
  | Returned userId =>
      if absent userId
      then (mkResponse 401 (ErrorBody "Unauthorized"), [CalledAuth])
      else if absent DATABASE_URL
           then (mkResponse 500
                   (ErrorBody "DATABASE_URL environment variable is not set"),
                 [CalledAuth])
           else match select with
                | Returned rows =>
                    (mkResponse 200 (RowsBody rows),
                     [CalledAuth; ReachedDatabase])
                | Threw => (failed, [CalledAuth; ReachedDatabase; LoggedError])
                end
  end.

(** [response.ok] *)
Definition ok (r : Response) : bool :=
  ((200 <=? status r) && (status r <=? 299))%Z.

End Api.

Module Loader.

(** The data state of the [Home] component. *)
Record DataState : Type := mkDataState {
  projects : list Project;
  loading : bool;
  error : option string;
  refreshing : bool
}.

(** The [useState] defaults. *)
Definition initialData : DataState := mkDataState [] true None false.

(** A thrown value: an [Error] with its message, or something else. *)
Inductive Thrown : Type :=
| ErrorObject (message : string)
| OtherValue.

(** What the awaits of [fetchProjects] meet: [fetch] rejects, the
    response is not ok, or it is ok and [response.json()] throws or gives
    the data. *)
Inductive FetchResult : Type :=
| FetchRejected (t : Thrown)
| NotOk
| OkJson (json : Thrown + list Project).

(** [err instanceof Error ? err.message : "Unknown error"] *)
Definition errorMessage (t : Thrown) : string :=
  match t with
  | ErrorObject message => message
  | OtherValue => "Unknown error"
  end.

(** The state changes of [fetchProjects] before its first await. *)
Definition fetchBegin (isRefresh : bool) (st : DataState) : DataState :=
  mkDataState (projects st)
              (if isRefresh then loading st else true)
              None
              (if isRefresh then true else refreshing st).

(** The state changes of [fetchProjects] once its awaits have settled:
    the try block, the catch block, then the finally block. *)
Definition fetchSettle (r : FetchResult) (st : DataState) : DataState :=
  match r with
  | OkJson (inr data) => mkDataState data false (error st) false
  | OkJson (inl t) =>
      mkDataState (projects st) false (Some (errorMessage t)) false
  | NotOk =>
      mkDataState (projects st) false (Some "Failed to fetch projects") false
  | FetchRejected t =>
      mkDataState (projects st) false (Some (errorMessage t)) false
  end.

Definition fetchProjects (isRefresh : bool) (r : FetchResult) (st : DataState)
  : DataState :=
  fetchSettle r (fetchBegin isRefresh st).

(** What the client meets when the handler has answered [resp]; an ok
    response with an error body would hand a non-array to [setProjects],
    which the data state here cannot hold. *)
Definition deliver (resp : Api.Response) : option FetchResult :=
  if Api.ok resp then
    match Api.body resp with
    | Api.RowsBody rows => Some (OkJson (inr rows))
    | Api.ErrorBody _ => None
    end
  else Some NotOk.

(** What [Home] returns. *)
Inductive Screen : Type :=
| Spinner
| SignInPrompt
| Skeleton
| ErrorPanel (message : string)
| Dashboard.

Definition render (isLoaded isSignedIn : bool) (st : DataState) : Screen :=
  if negb isLoaded then Spinner
  else if negb isSignedIn then SignInPrompt
  else if loading st then Skeleton
  else match error st with
       | Some message =>
           if JS.isEmpty message then Dashboard else ErrorPanel message
       | None => Dashboard
       end.

End Loader.

(* ================================================================== *)
(** ** Reading a CSV text back                                         *)
(* ================================================================== *)

(** An unquoted field ends before a comma or a line feed. *)
Definition endsPlain (c : ascii) : bool :=
  Ascii.eqb c "," || Ascii.eqb c JS.newline.

Fixpoint readPlain (s : string) : string * string :=
  match s with
  | EmptyString => (EmptyString, EmptyString)
  | String c s' =>
      if endsPlain c then (EmptyString, s)
      else let '(f, r) := readPlain s' in (String c f, r)
  end.

(** One field: quoted when it opens with a double quote. *)
Definition readField (s : string) : option (string * string) :=
  if startsWithQuote s then readQuoted s else Some (readPlain s).

(** One record: fields separated by commas. *)
Fixpoint readRecord (fuel : nat) (s : string) : option (list string * string) :=
  match fuel with
  | O => None
  | S fuel' =>
      match readField s with
      | None => None
      | Some (x, r) =>
          match r with
          | EmptyString => Some ([x], EmptyString)
          | String c r' =>
              if Ascii.eqb c ","
              then match readRecord fuel' r' with
                   | Some (xs, r'') => Some (x :: xs, r'')
                   | None => None
                   end
              else Some ([x], r)
          end
      end
  end.

(** The records of a text: separated by line feeds, no line feed after
    the last one. *)
Fixpoint readRecords (fuel : nat) (s : string) : option (list (list string)) :=
  match fuel with
  | O => None
  | S fuel' =>
      match readRecord fuel s with
      | None => None
      | Some (record, r) =>
          match r with
          | EmptyString => Some [record]
          | String c r' =>
              if Ascii.eqb c JS.newline
              then match readRecords fuel' r' with
                   | Some records => Some (record :: records)
                   | None => None
                   end
              else None
          end
      end
  end.

Definition readCSV (text : string) : option (list (list string)) :=
  readRecords (S (String.length text)) text.

(** A text without comma, line feed and double quote. *)
Fixpoint plainText (s : string) : bool :=
  match s with
  | EmptyString => true
  | String c s' =>
      negb (endsPlain c) && negb (Ascii.eqb c JS.dquote) && plainText s'
  end.

(** The text after a field: nothing, a comma or a line feed. *)
Definition endsField (rest : string) : bool :=
  match rest with
  | EmptyString => true
  | String c _ => endsPlain c
  end.

(** The text after a record: nothing or a line feed. *)
Definition endsRecord (rest : string) : bool :=
  match rest with
  | EmptyString => true
  | String c _ => Ascii.eqb c JS.newline
  end.

(** A cell text that reads back as the value, whatever field end
    follows. *)
Definition cellReads (cell : string * string) : Prop :=
  forall rest, endsField rest = true ->
               readField (fst cell ++ rest) = Some (snd cell, rest).

(** The values a CSV row stands for, and the row as cells: the text of
    each field with its value. *)
Definition csvValues (Date_parse : string -> option Z)
           (toLocaleDateString : Z -> string) (p : Project) : list string :=
  [ JS.Number_toString (id p);
    JS.or_else (project_name p) NotSpecified;
    JS.or_else (location p) NotSpecified;
    JS.or_else (project_type p) NotSpecified;
    JS.or_else (stage p) NotSpecified;
    JS.or_else (stakeholders p) NotSpecified;
    JS.or_else (project_value p) NotSpecified;
    JS.or_else (source_link p) NotSpecified;
    dateCell Date_parse toLocaleDateString (date_added p) ].

Definition csvCells (Date_parse : string -> option Z)
           (toLocaleDateString : Z -> string) (p : Project)
  : list (string * string) :=
  [ (JS.Number_toString (id p), JS.Number_toString (id p));
    (csvField (project_name p), JS.or_else (project_name p) NotSpecified);
    (csvField (location p), JS.or_else (location p) NotSpecified);
    (csvField (project_type p), JS.or_else (project_type p) NotSpecified);
    (csvField (stage p), JS.or_else (stage p) NotSpecified);
    (csvField (stakeholders p), JS.or_else (stakeholders p) NotSpecified);
    (csvField (project_value p), JS.or_else (project_value p) NotSpecified);
    (csvField (source_link p), JS.or_else (source_link p) NotSpecified);
    (dateCell Date_parse toLocaleDateString (date_added p),
     dateCell Date_parse toLocaleDateString (date_added p)) ].

(** The colour classes of the stage badge in the table of [page.tsx]. *)
Definition screenStageClass (stage : string) : string :=
  if JS.includes (JS.toLowerCase stage) "approved"
  then "bg-green-100 text-green-800"
  else if JS.includes (JS.toLowerCase stage) "proposed"
          || JS.includes (JS.toLowerCase stage) "planning"
       then "bg-yellow-100 text-yellow-800"
       else if JS.includes (JS.toLowerCase stage) "completed"
            then "bg-blue-100 text-blue-800"
            else "bg-gray-100 text-gray-800".

(** *** The pretty-printed text, written out

    What [JSON.stringify(data, null, 2)] gives for an array of projects:
    the brackets on lines of their own, every record indented by two
    spaces, every member of a record on a line of its own, indented by
    four spaces, as its quoted key, a colon, a space and the raw value
    (the id in decimal, a text as a JSON string), commas at the line
    ends. *)
Definition prettyMember (key rendered : string) : string :=
  sp 4 ++ q ++ key ++ q ++ ": " ++ rendered.

Definition prettyProject (p : Project) : string :=
  "{" ++ JS.nl
  ++ prettyMember "id" (JS.Number_toString (id p)) ++ "," ++ JS.nl
  ++ prettyMember "project_name" (JSON.quoteJSONString (project_name p))
  ++ "," ++ JS.nl
  ++ prettyMember "location" (JSON.quoteJSONString (location p))
  ++ "," ++ JS.nl
  ++ prettyMember "project_type" (JSON.quoteJSONString (project_type p))
  ++ "," ++ JS.nl
  ++ prettyMember "stage" (JSON.quoteJSONString (stage p))
  ++ "," ++ JS.nl
  ++ prettyMember "stakeholders" (JSON.quoteJSONString (stakeholders p))
  ++ "," ++ JS.nl
  ++ prettyMember "project_value" (JSON.quoteJSONString (project_value p))
  ++ "," ++ JS.nl
  ++ prettyMember "date_added" (JSON.quoteJSONString (date_added p))
  ++ "," ++ JS.nl
  ++ prettyMember "source_link" (JSON.quoteJSONString (source_link p))
  ++ JS.nl ++ sp 2 ++ "}".

Definition prettyArray (data : list Project) : string :=
  match data with
  | [] => "[]"
  | _ :: _ =>
      "[" ++ JS.nl ++ sp 2
      ++ String.concat ("," ++ JS.nl ++ sp 2) (map prettyProject data)
      ++ JS.nl ++ "]"
  end.

(** The exported text of the depot project alone, line by line. *)
Definition depotJsonLines : list string :=
  [ "[";
    "  {";
    "    " ++ q ++ "id" ++ q ++ ": 2,";
    "    " ++ q ++ "project_name" ++ q ++ ": " ++ q ++ "Depot" ++ q ++ ",";
    "    " ++ q ++ "location" ++ q ++ ": " ++ q ++ "Dallas" ++ q ++ ",";
    "    " ++ q ++ "project_type" ++ q ++ ": " ++ q ++ "Rail" ++ q ++ ",";
    "    " ++ q ++ "stage" ++ q ++ ": " ++ q ++ q ++ ",";
    "    " ++ q ++ "stakeholders" ++ q ++ ": " ++ q ++ "Rail Co" ++ q ++ ",";
    "    " ++ q ++ "project_value" ++ q ++ ": " ++ q ++ "$2,000,000" ++ q ++ ",";
    "    " ++ q ++ "date_added" ++ q ++ ": " ++ q ++ "2024-03-01" ++ q ++ ",";
    "    " ++ q ++ "source_link" ++ q ++ ": " ++ q
      ++ "https://example.com/depot.pdf" ++ q;
    "  }";
    "]" ].

(* ================================================================== *)
(** ** Properties                                                      *)
(* ================================================================== *)

(** *** Strings *)

Lemma append_empty_r (s : string) : s ++ EmptyString = s.
Proof. induction s as [|c s IH]; simpl; [reflexivity | now rewrite IH]. Qed.

Lemma append_assoc (a b c : string) : (a ++ b) ++ c = a ++ (b ++ c).
Proof. induction a as [|x a IH]; simpl; [reflexivity | now rewrite IH]. Qed.

Lemma length_append (a b : string) :
  String.length (a ++ b) = (String.length a + String.length b)%nat.
Proof. induction a as [|x a IH]; simpl; [reflexivity | now rewrite IH]. Qed.

Lemma isEmpty_true (s : string) : JS.isEmpty s = true <-> s = EmptyString.
Proof. destruct s; simpl; split; intros H; congruence. Qed.

Lemma isEmpty_false (s : string) : JS.isEmpty s = false <-> s <> EmptyString.
Proof. destruct s; simpl; split; intros H; congruence. Qed.

Lemma prefix_iff (p s : string) :
  String.prefix p s = true <-> has_prefix p s.
Proof.
  revert s; induction p as [|c p IH]; intros s.
  - split; [intros _; now exists s | intros _; now destruct s].
  - destruct s as [|d s]; simpl.
    + split; [discriminate | intros [suf H]; discriminate].
    + destruct (ascii_dec c d) as [->|Hcd].
      * rewrite IH. split; intros [suf H]; exists suf.
        -- now rewrite H.
        -- now injection H.
      * split; [discriminate | intros [suf H]; injection H; congruence].
Qed.

Lemma substring_skip (a b : string) :
  String.substring (String.length a) (String.length b) (a ++ b) = b.
Proof.
  induction a as [|x a IH]; simpl.
  - induction b as [|y b IHb]; simpl; [reflexivity|].
    now rewrite IHb.
  - exact IH.
Qed.

Lemma substring_split (n : nat) (s : string) :
  (n <= String.length s)%nat ->
  exists pre, s = pre ++ String.substring n (String.length s - n) s /\
              String.length pre = n.
Proof.
  revert s; induction n as [|n IH]; intros s Hn.
  - exists EmptyString. split; [|reflexivity]. simpl.
    rewrite Nat.sub_0_r. clear Hn.
    induction s as [|c s IHs]; simpl; [reflexivity | now rewrite <- IHs].
  - destruct s as [|c s]; simpl in *; [lia|].
    destruct (IH s) as [pre [H1 H2]]; [lia|].
    exists (String c pre). simpl. split; [now rewrite <- H1 | now rewrite H2].
Qed.

Lemma endsWith_iff (s suf : string) :
  JS.endsWith s suf = true <-> has_suffix suf s.
Proof.
  unfold JS.endsWith, has_suffix. rewrite andb_true_iff, Nat.leb_le, String.eqb_eq.
  split.
  - intros [Hlen Hsub].
    destruct (substring_split (String.length s - String.length suf) s)
      as [pre [H1 H2]]; [lia|].
    exists pre. rewrite H1 at 1. f_equal.
    replace (String.length s - (String.length s - String.length suf))%nat
      with (String.length suf) by lia.
    exact Hsub.
  - intros [pre ->]. rewrite length_append. split; [lia|].
    replace (String.length pre + String.length suf - String.length suf)%nat
      with (String.length pre) by lia.
    apply substring_skip.
Qed.

(** *** Source classification *)

Lemma getSourceType_sound (s : string) : SourceTypeSpec s (Page.getSourceType s).
Proof.
  unfold Page.getSourceType.
  destruct (JS.isEmpty s) eqn:He.
  - apply ST_none. now apply isEmpty_true.
  - apply isEmpty_false in He.
    destruct (JS.endsWith s ".pdf") eqn:Hp.
    + apply ST_pdf; [assumption | now apply endsWith_iff].
    + assert (Hn : ~ has_suffix ".pdf" s).
      { intros H. apply endsWith_iff in H. congruence. }
      unfold JS.startsWith.
      destruct (String.prefix TexasPrefix s) eqn:Ht.
      * apply ST_texas; [assumption | assumption | now apply prefix_iff].
      * apply ST_website; [assumption | assumption |].
        intros H. apply prefix_iff in H. unfold TexasPrefix in Ht. congruence.
Qed.

Lemma SourceTypeSpec_functional (s t u : string) :
  SourceTypeSpec s t -> SourceTypeSpec s u -> t = u.
Proof.
  intros Ht Hu; destruct Ht; destruct Hu; try reflexivity; contradiction.
Qed.

Lemma getSourceType_copies_agree (s : string) :
  ExportButton.getSourceType s = Page.getSourceType s.
Proof. reflexivity. Qed.

(** C2. For every source link the derived source type is "Not specified"
    when the link is empty, otherwise "PDF" when it ends with ".pdf",
    otherwise "Texas" when it starts with the portal prefix, otherwise
    "Website"; both copies of the function compute it, and the portal link
    ending in ".pdf" is a "PDF". *)
Theorem C2_getSourceType_spec :
  (forall s t, SourceTypeSpec s t <-> Page.getSourceType s = t) /\
  (forall s t, SourceTypeSpec s t <-> ExportButton.getSourceType s = t) /\
  Page.getSourceType "https://www.tdlr.texas.gov/TABS/x.pdf" = "PDF" /\
  ExportButton.getSourceType "https://www.tdlr.texas.gov/TABS/x.pdf" = "PDF".
Proof.
  assert (H : forall s t, SourceTypeSpec s t <-> Page.getSourceType s = t).
  { intros s t; split.
    - intros Hs. apply (SourceTypeSpec_functional s); [apply getSourceType_sound | exact Hs].
    - intros <-. apply getSourceType_sound. }
  repeat split; try reflexivity; try (intros Hs; now apply H).
  all: intros Hs; apply H; now rewrite <- getSourceType_copies_agree.
Qed.

(** *** Filters *)

Lemma filter_length_le {A : Type} (f g : A -> bool) (l : list A) :
  (forall x, f x = true -> g x = true) ->
  (List.length (filter f l) <= List.length (filter g l))%nat.
Proof.
  intros Hfg. induction l as [|x l IH]; simpl; [lia|].
  destruct (f x) eqn:Hf.
  - rewrite (Hfg x Hf). simpl. lia.
  - destruct (g x); simpl; lia.
Qed.

Lemma matchesFilter_empty (actual : string) :
  matchesFilter EmptyString actual = true.
Proof. reflexivity. Qed.

(** C8. Setting a stage filter, a type filter or a source filter never
    lets more projects through than leaving that filter empty. *)
Theorem C8_filter_narrowing (P : list Project) (S : ViewState) (X : string) :
  (List.length (filtered P (withFilterStage X S))
   <= List.length (filtered P (withFilterStage EmptyString S)))%nat /\
  (List.length (filtered P (withFilterType X S))
   <= List.length (filtered P (withFilterType EmptyString S)))%nat /\
  (List.length (filtered P (withFilterSource X S))
   <= List.length (filtered P (withFilterSource EmptyString S)))%nat.
Proof.
  unfold filtered. repeat split; apply filter_length_le; intros p;
    unfold passes, matchesStage, matchesType, matchesSource; simpl;
    rewrite !andb_true_iff; intros [[[H1 H2] H3] H4]; repeat split;
    try assumption; apply matchesFilter_empty.
Qed.

(** *** State handlers *)

(** C9. Clearing the filters empties the search term and the three
    filters and keeps the sort field, the sort direction and the page
    size. *)
Theorem C9_clearFilters_frame (st : ViewState) :
  searchTerm (clearFilters st) = EmptyString /\
  filterStage (clearFilters st) = EmptyString /\
  filterType (clearFilters st) = EmptyString /\
  filterSource (clearFilters st) = EmptyString /\
  sortField (clearFilters st) = sortField st /\
  sortDirection (clearFilters st) = sortDirection st /\
  itemsPerPage (clearFilters st) = itemsPerPage st.
Proof. repeat split. Qed.

Lemma handler_resets_page (a : Action) (st : ViewState) :
  (forall n, a <> GoToPage n) -> currentPage (step a st) = 1.
Proof.
  intros Ha. destruct a as [f|v|t v| |n|n]; simpl.
  - unfold handleSort. now destruct (SortField_eqb f (sortField st)).
  - reflexivity.
  - now destruct t.
  - reflexivity.
  - reflexivity.
  - now elim (Ha n).
Qed.

Lemma GoToPage_keeps_controls (n : Z) (st : ViewState) :
  ~ changesControls st (step (GoToPage n) st).
Proof. unfold changesControls; simpl. tauto. Qed.

(** C10. Every handler other than page navigation (search, the three
    filters, sort, page size, clear filters), and so every transition
    that changes one of these controls, leaves the current page at 1. *)
Theorem C10_page_reset (a : Action) (st : ViewState) :
  (forall n, a <> GoToPage n) \/ changesControls st (step a st) ->
  currentPage (step a st) = 1.
Proof.
  intros [Ha|Hc].
  - now apply handler_resets_page.
  - apply handler_resets_page. intros n ->.
    now apply (GoToPage_keeps_controls n st).
Qed.

Lemma C10_page_reset_witness :
  changesControls (setCurrentPage 3 initialState)
                  (step (Search "acme") (setCurrentPage 3 initialState)) /\
  currentPage (step (ItemsPerPage 50) (setCurrentPage 3 initialState)) = 1 /\
  currentPage (step (Search "acme") (setCurrentPage 3 initialState)) = 1.
Proof.
  split; [left; simpl; discriminate|].
  split.
  - apply C10_page_reset. left. intros n; discriminate.
  - apply C10_page_reset. right. left. simpl. discriminate.
Defined.

(** *** Pagination *)

Lemma Math_ceil_div_spec (n d : Z) :
  0 < d ->
  exists k, Math_ceil_div n d = Some k /\ (k - 1) * d < n <= k * d.
Proof.
  intros Hd. unfold Math_ceil_div.
  destruct (Z.eqb_spec d 0) as [->|_]; [lia|].
  destruct d as [|p|p]; try lia.
  eexists; split; [reflexivity|].
  unfold Qceiling, Qfloor, Qdiv, Qinv, Qmult, Qopp, inject_Z; simpl.
  rewrite Z.mul_1_r.
  pose proof (Z.mul_div_le (- n) (Z.pos p) Hd) as H1.
  pose proof (Z.mul_succ_div_gt (- n) (Z.pos p) Hd) as H2.
  nia.
Qed.

Lemma firstn_min_length {A : Type} (c : nat) (l : list A) :
  firstn (Nat.min c (List.length l)) l = firstn c l.
Proof.
  destruct (Nat.le_ge_cases c (List.length l)) as [H|H].
  - now rewrite Nat.min_l.
  - rewrite Nat.min_r by assumption.
    now rewrite firstn_all, firstn_all2.
Qed.

Lemma Array_slice_window {A : Type} (l : list A) (s c : Z) :
  0 <= s -> 0 <= c ->
  Array_slice l s (s + c) = firstn (Z.to_nat c) (skipn (Z.to_nat s) l).
Proof.
  intros Hs Hc. unfold Array_slice.
  destruct (Z.ltb_spec s 0) as [?|_]; [lia|].
  destruct (Z.ltb_spec (s + c) 0) as [?|_]; [lia|].
  destruct (Z.le_gt_cases (Z.of_nat (List.length l)) s) as [Hle|Hgt].
  - rewrite (skipn_all2 l (n := Z.to_nat s)) by lia.
    rewrite (skipn_all2 l (n := Z.to_nat (Z.min s _))) by lia.
    now rewrite !firstn_nil.
  - rewrite (Z.min_l s) by lia.
    rewrite <- (firstn_min_length (Z.to_nat c)).
    f_equal. rewrite length_skipn. lia.
Qed.

(** C5. With a positive page size and a page number from 1 on, the
    number of pages is the ceiling of the row count over the page size
    (no rows, no pages), and the displayed rows are those at the offsets
    from [(page-1)*pageSize] up to [page*pageSize], as far as they exist;
    60 rows in pages of 25 make 3 pages and the third page holds the 10
    rows from offset 50 on. *)
Theorem C5_pagination {A : Type} (rows : list A) (st : ViewState) :
  0 < itemsPerPage st -> 1 <= currentPage st ->
  (exists k, totalPages rows st = Some k /\
             (k - 1) * itemsPerPage st
             < Z.of_nat (List.length rows) <= k * itemsPerPage st) /\
  (rows = [] -> totalPages rows st = Some 0) /\
  (forall i : nat,
      nth_error (paginatedProjects rows st) i =
      if (Z.of_nat i <? itemsPerPage st)%Z
      then nth_error rows (Z.to_nat ((currentPage st - 1) * itemsPerPage st) + i)
      else None) /\
  (List.length rows = 60%nat -> itemsPerPage st = 25 ->
   totalPages rows st = Some 3 /\
   (currentPage st = 3 ->
    paginatedProjects rows st = skipn 50 rows /\
    List.length (paginatedProjects rows st) = 10%nat)).
Proof.
  intros Hps Hpage.
  assert (Hslice : paginatedProjects rows st =
                   firstn (Z.to_nat (itemsPerPage st))
                          (skipn (Z.to_nat (startIndex st)) rows)).
  { unfold paginatedProjects. apply Array_slice_window; unfold startIndex; nia. }
  destruct (Math_ceil_div_spec (Z.of_nat (List.length rows)) (itemsPerPage st) Hps)
    as [k [Hk Hb]].
  split; [exists k; split; assumption|].
  split.
  { intros ->. unfold totalPages in *. simpl in *. rewrite Hk. f_equal. nia. }
  split.
  { intros i. rewrite Hslice, nth_error_firstn, nth_error_skipn.
    unfold startIndex.
    destruct (Nat.ltb_spec i (Z.to_nat (itemsPerPage st)));
      destruct (Z.ltb_spec (Z.of_nat i) (itemsPerPage st)); try lia; reflexivity. }
  intros Hlen H25. unfold totalPages in *. rewrite Hlen, H25 in *.
  split.
  { rewrite Hk. f_equal. lia. }
  intros H3. rewrite Hslice. unfold startIndex. rewrite H25, H3.
  change (Z.to_nat ((3 - 1) * 25)) with 50%nat.
  assert (Hl : List.length (skipn 50 rows) = 10%nat)
    by (rewrite length_skipn; lia).
  rewrite firstn_all2 by lia. split; [reflexivity | exact Hl].
Qed.

Lemma C5_pagination_witness :
  totalPages (seq 0 60) (setCurrentPage 3 initialState) = Some 3 /\
  paginatedProjects (seq 0 60) (setCurrentPage 3 initialState) = seq 50 10.
Proof.
  assert (Hps : 0 < itemsPerPage (setCurrentPage 3 initialState))
    by (simpl; lia).
  assert (Hpage : 1 <= currentPage (setCurrentPage 3 initialState))
    by (simpl; lia).
  destruct (C5_pagination (seq 0 60) (setCurrentPage 3 initialState) Hps Hpage)
    as [_ [_ [_ H]]].
  destruct (H eq_refl eq_refl) as [Ht Hp].
  split; [exact Ht|].
  destruct (Hp eq_refl) as [Hrows _]. rewrite Hrows. reflexivity.
Defined.

(** *** Sort *)

Lemma isNotSpecified_text (s : string) :
  isNotSpecified (VStr s) = missingText s.
Proof.
  unfold isNotSpecified, missingText; simpl.
  rewrite negb_involutive.
  destruct (JS.isEmpty s), (String.eqb s NotSpecified),
    (JS.isEmpty (JS.trim s)); reflexivity.
Qed.

(** The date block keeps missing values last whatever the direction. *)
Lemma date_added_missing_last
      (Date_parse : string -> option Z) (dir : SortDirection) (a b : Project) :
  missingValue Date_parse K_date_added a = true ->
  missingValue Date_parse K_date_added b = false ->
  compareProjects Date_parse K_date_added dir a b = 1 /\
  compareProjects Date_parse K_date_added dir b a = -1.
Proof.
  unfold missingValue, compareProjects, dateBlock; simpl.
  rewrite !isNotSpecified_text.
  intros Ha Hb. apply orb_false_iff in Hb as [Hb1 Hb2]. rewrite Hb1.
  destruct (Date_parse (date_added b)) as [tb|]; [|discriminate].
  destruct (missingText (date_added a)); simpl; [split; reflexivity|].
  destruct (Date_parse (date_added a)); [discriminate | split; reflexivity].
Qed.

(** So does the general branch when the direction is ascending. *)
Lemma asc_missing_last
      (Date_parse : string -> option Z) (field : SortField) (a b : Project) :
  missingValue Date_parse field a = true ->
  missingValue Date_parse field b = false ->
  compareProjects Date_parse field asc a b = 1 /\
  compareProjects Date_parse field asc b a = -1.
Proof.
  destruct field; try (apply date_added_missing_last);
    unfold missingValue, compareProjects, compareValues; simpl;
    try discriminate;
    rewrite !isNotSpecified_text, !orb_false_r;
    intros -> ->; split; reflexivity.
Qed.

(** In descending direction the general branch puts every missing value
    in front of every present one. *)
Lemma desc_missing_first
      (Date_parse : string -> option Z) (field : SortField) (a b : Project) :
  field <> K_date_added ->
  missingValue Date_parse field a = false ->
  missingValue Date_parse field b = true ->
  compareProjects Date_parse field desc a b = 1 /\
  compareProjects Date_parse field desc b a = -1.
Proof.
  intros Hf. destruct field; try (now elim Hf);
    unfold missingValue, compareProjects, compareValues; simpl;
    try discriminate;
    rewrite !isNotSpecified_text, !orb_false_r;
    intros -> ->; split; reflexivity.
Qed.

(** The dates 2024-01-05, none, 2024-03-01 in descending order: newest
    first, the record without a date last. *)
Example date_added_desc_scenario :
  map date_added
      (Array_sort (compareProjects Sample.Date_parse K_date_added desc)
         [ mkProject 1 "a" "b" "c" "d" "e" "f" "2024-01-05" "g";
           mkProject 2 "a" "b" "c" "d" "e" "f" EmptyString "g";
           mkProject 3 "a" "b" "c" "d" "e" "f" "2024-03-01" "g" ])
  = ["2024-03-01"; "2024-01-05"; EmptyString].
Proof. reflexivity. Qed.

(** C1. Sorting by stage in descending direction, the comparator puts a
    record with a present stage after a record with a missing stage, and
    the sorted view lists the record with the missing stage first. *)
Theorem C1_desc_missing_first (Date_parse : string -> option Z) :
  sortField stageDescState = K_stage /\
  sortDirection stageDescState = desc /\
  missingValue Date_parse K_stage bridgeProject = false /\
  missingValue Date_parse K_stage depotProject = true /\
  compareProjects Date_parse K_stage desc bridgeProject depotProject = 1 /\
  compareProjects Date_parse K_stage desc depotProject bridgeProject = -1 /\
  filteredAndSortedProjects Date_parse [bridgeProject; depotProject]
                            stageDescState
  = [depotProject; bridgeProject].
Proof. repeat split. Qed.

(** *** Search *)

Lemma includes_iff (s p : string) :
  JS.includes s p = true <-> exists pre post, s = pre ++ p ++ post.
Proof.
  induction s as [|c s IH].
  - change (JS.includes EmptyString p)
      with (String.prefix p EmptyString || false).
    rewrite orb_false_r, prefix_iff. split.
    + intros [suf H]. exists EmptyString, suf. exact H.
    + intros [pre [post H]]. destruct pre; [now exists post | discriminate].
  - change (JS.includes (String c s) p)
      with (String.prefix p (String c s) || JS.includes s p).
    rewrite orb_true_iff, IH, prefix_iff. split.
    + intros [[suf H]|[pre [post H]]].
      * exists EmptyString, suf. exact H.
      * exists (String c pre), post. simpl. now rewrite H.
    + intros [pre [post H]]. destruct pre as [|d pre].
      * left. now exists post.
      * right. exists pre, post. simpl in H. now injection H.
Qed.

(** Lower-casing goes through concatenation; this is a fact of code
    units below 256 only, see [JS.toLowerCase]. *)
Lemma toLowerCase_append (a b : string) :
  JS.toLowerCase (a ++ b) = JS.toLowerCase a ++ JS.toLowerCase b.
Proof. induction a as [|c a IH]; simpl; [reflexivity | now rewrite IH]. Qed.

Lemma matchesSearch_contains (term : string) (p : Project) :
  matchesSearch term p = true <->
  exists pre post, searchableText p = pre ++ JS.toLowerCase term ++ post.
Proof. unfold matchesSearch. apply includes_iff. Qed.

Lemma concat_middle (sep x : string) (l1 l2 : list string) :
  exists before after,
    String.concat sep (l1 ++ x :: l2)%list = before ++ x ++ after.
Proof.
  induction l1 as [|y l1 IH].
  - exists EmptyString. destruct l2 as [|z l2]; simpl.
    + exists EmptyString. now rewrite append_empty_r.
    + now exists (sep ++ String.concat sep (z :: l2)).
  - destruct IH as [before [after IH]].
    exists (y ++ sep ++ before), after.
    change ((y :: l1) ++ x :: l2)%list with (y :: (l1 ++ x :: l2))%list.
    destruct (l1 ++ x :: l2)%list as [|z l] eqn:E.
    + destruct l1; discriminate.
    + cbn [String.concat] in *. now rewrite IH, !append_assoc.
Qed.

Lemma toString_orSentinel (s : string) :
  Value.toString (Value.or_else (VStr s) NotSpecified) = orSentinel s.
Proof. now destruct s. Qed.

Lemma toString_idOrSentinel (n : Z) :
  Value.toString (Value.or_else (VNum n) NotSpecified) = idOrSentinel n.
Proof.
  unfold Value.or_else, idOrSentinel. cbn [Value.truthy].
  now destruct (n =? 0)%Z.
Qed.

Lemma searchableText_written_out (p : Project) :
  searchableText p = JS.toLowerCase (searchedText p).
Proof.
  unfold searchableText, searchableValues, Object_values, searchedText,
    JS.join.
  cbn [map String.concat].
  now rewrite toString_idOrSentinel, !toString_orSentinel.
Qed.

Lemma stakeholders_in_searchableText (p : Project) :
  stakeholders p <> EmptyString ->
  exists before after,
    searchableText p = before ++ JS.toLowerCase (stakeholders p) ++ after.
Proof.
  intros Hne. unfold searchableText, searchableValues, Object_values, JS.join.
  cbn [map].
  assert (Hs : Value.toString (Value.or_else (VStr (stakeholders p)) NotSpecified)
               = stakeholders p).
  { unfold Value.or_else; simpl.
    destruct (stakeholders p); [contradiction | reflexivity]. }
  rewrite Hs.
  match goal with
  | |- context [String.concat ?sep [?a; ?b; ?c; ?d; ?e; ?x; ?f; ?g; ?h]] =>
      destruct (concat_middle sep x [a; b; c; d; e] [f; g; h])
        as [before [after E]];
      change ([a; b; c; d; e] ++ x :: [f; g; h])%list
        with [a; b; c; d; e; x; f; g; h] in E
  end.
  rewrite E, !toLowerCase_append.
  now exists (JS.toLowerCase before), (JS.toLowerCase after).
Qed.

(** C6, the claim as worded.  With the values concatenated, the term
    repairaustin would find the bridge project (its name ends in repair,
    its location is Austin) and the term repair austin would not; the
    callback joins the values with a space, so it is the other way
    round.  With a name of three spaces counted as the sentinel, the
    term not specified would find the port project; the callback
    replaces the empty string only and does not find it. *)
Lemma C6_concatenation_counterexample :
  (Spec.searchCondition "repairaustin" bridgeProject = true /\
   matchesSearch "repairaustin" bridgeProject = false) /\
  (Spec.searchCondition "repair austin" bridgeProject = false /\
   matchesSearch "repair austin" bridgeProject = true) /\
  (Spec.searchCondition "not specified" blankNameProject = true /\
   matchesSearch "not specified" blankNameProject = false) /\
  ~ (forall term p,
        term <> EmptyString ->
        (matchesSearch term p = true <-> Spec.searchCondition term p = true)).
Proof.
  assert (H1 : Spec.searchCondition "repairaustin" bridgeProject = true)
    by (vm_compute; reflexivity).
  assert (H2 : matchesSearch "repairaustin" bridgeProject = false)
    by (vm_compute; reflexivity).
  split; [split; assumption|].
  split; [split; vm_compute; reflexivity|].
  split; [split; vm_compute; reflexivity|].
  intros H.
  destruct (H "repairaustin" bridgeProject) as [_ Hback]; [discriminate|].
  rewrite (Hback H1) in H2. discriminate.
Qed.

(** C6, amended.  A project passes the search condition exactly when the
    lower-cased text of its nine field values (in the order id,
    project_name, location, project_type, stage, stakeholders,
    project_value, date_added, source_link; an id of 0 and an empty text
    replaced by the sentinel; one space between neighbours) contains the
    lower-cased search term.  The empty term passes every project, and
    the term acme finds a project that has Acme in its stakeholders
    only.  The text of the depot project, whose stage is empty, is
    written out. *)
Theorem C6_search_condition (term : string) (p : Project) :
  (matchesSearch term p = true <->
   exists pre post,
     JS.toLowerCase (searchedText p) = pre ++ JS.toLowerCase term ++ post) /\
  matchesSearch EmptyString p = true /\
  (forall pre post,
      stakeholders p = pre ++ "Acme" ++ post -> matchesSearch "acme" p = true) /\
  searchedText depotProject
  = "2 Depot Dallas Rail Not specified Rail Co $2,000,000 2024-03-01 https://example.com/depot.pdf" /\
  searchedText (mkProject 0 "a" "b" "c" "d" "e" "f" "g" "h")
  = "Not specified a b c d e f g h".
Proof.
  split; [rewrite <- searchableText_written_out; apply matchesSearch_contains|].
  split.
  { apply matchesSearch_contains. now exists EmptyString, (searchableText p). }
  split; [|split; reflexivity].
  intros pre post H. apply matchesSearch_contains.
  destruct (stakeholders_in_searchableText p) as [before [after Hj]].
  { rewrite H. destruct pre; discriminate. }
  exists (before ++ JS.toLowerCase pre), (JS.toLowerCase post ++ after).
  rewrite Hj, H, !toLowerCase_append, !append_assoc. reflexivity.
Qed.

Lemma C6_search_condition_witness :
  matchesSearch "acme" bridgeProject = true.
Proof.
  apply (C6_search_condition "acme" bridgeProject) with
    (pre := EmptyString) (post := " Corp").
  reflexivity.
Defined.

(** *** CSV export *)

Lemma concat_cons_sep (sep x : string) (l : list string) :
  String.concat sep (x :: l)
  = x ++ String.concat EmptyString (map (fun y => sep ++ y) l).
Proof.
  revert x; induction l as [|y l IH]; intros x.
  - simpl. now rewrite append_empty_r.
  - change (String.concat sep (x :: y :: l))
      with (x ++ sep ++ String.concat sep (y :: l)).
    rewrite IH. cbn [map]. destruct l as [|z l].
    + simpl. now rewrite !append_empty_r.
    + cbn [map String.concat]. now rewrite !append_assoc.
Qed.

Lemma readQuotedTail_doubleQuotes (t rest : string) :
  startsWithQuote rest = false ->
  readQuotedTail (JS.doubleQuotes t ++ q ++ rest) = Some (t, rest).
Proof.
  intros Hrest. induction t as [|c t IH].
  - simpl. destruct rest as [|d rest]; [reflexivity|].
    simpl in Hrest. now rewrite Hrest.
  - cbn [JS.doubleQuotes]. destruct (Ascii.eqb c JS.dquote) eqn:Hc.
    + apply Ascii.eqb_eq in Hc. subst c.
      cbn [append readQuotedTail]. rewrite Ascii.eqb_refl, IH. reflexivity.
    + cbn [append readQuotedTail]. now rewrite Hc, IH.
Qed.

Lemma readQuoted_csvField (field rest : string) :
  startsWithQuote rest = false ->
  readQuoted (csvField field ++ rest)
  = Some (JS.or_else field NotSpecified, rest).
Proof.
  intros Hrest. unfold csvField. rewrite !append_assoc.
  change (q ++ ?x) with (String JS.dquote x).
  cbn [readQuoted]. rewrite Ascii.eqb_refl.
  now apply readQuotedTail_doubleQuotes.
Qed.

(** C4, the claim as worded.  With the sentinel rule of the
    specification a name of three spaces would be exported as the quoted
    sentinel; the row template replaces the empty string only and
    exports the three spaces in quotes. *)
Lemma C4_blank_field_counterexample :
  SpecExport.csvField "   " = q ++ "Not specified" ++ q /\
  csvField "   " = q ++ "   " ++ q /\
  csvRow Sample.Date_parse Sample.toLocaleDateString blankNameProject
  = "6," ++ q ++ "   " ++ q ++ "," ++ q ++ "Laredo" ++ q
    ++ "," ++ q ++ "Port" ++ q ++ "," ++ q ++ "Approved" ++ q
    ++ "," ++ q ++ "Port Authority" ++ q ++ "," ++ q ++ "$6,000,000" ++ q
    ++ "," ++ q ++ "https://example.com/port" ++ q ++ ",2/10/2024" /\
  SpecExport.csvRow Sample.Date_parse Sample.toLocaleDateString
                    blankNameProject
  = "6," ++ q ++ "Not specified" ++ q ++ "," ++ q ++ "Laredo" ++ q
    ++ "," ++ q ++ "Port" ++ q ++ "," ++ q ++ "Approved" ++ q
    ++ "," ++ q ++ "Port Authority" ++ q ++ "," ++ q ++ "$6,000,000" ++ q
    ++ "," ++ q ++ "https://example.com/port" ++ q ++ ",2/10/2024" /\
  ~ (forall data,
        convertToCSV Sample.Date_parse Sample.toLocaleDateString data
        = SpecExport.convertToCSV Sample.Date_parse Sample.toLocaleDateString
                                  data).
Proof.
  split; [vm_compute; reflexivity|].
  split; [vm_compute; reflexivity|].
  split; [vm_compute; reflexivity|].
  split; [vm_compute; reflexivity|].
  intros H. specialize (H [blankNameProject]). vm_compute in H. discriminate.
Qed.

(** C4, amended.  The CSV export is the header line
    ID,Project Name,Location,Project Type,Stage,Stakeholders,Project Value,Source Link,Date Added
    followed by one line per project in input order; a line is the bare
    id, then the seven text fields, each replaced by the sentinel when it
    is the empty string and left as it is otherwise (white space
    included), its double quotes doubled, and wrapped in double quotes
    (so a CSV reader gets the text back), then the date, which is the
    locale rendering of a date that is not blank and parses, and the
    sentinel otherwise. *)
Theorem C4_convertToCSV
        (Date_parse : string -> option Z) (toLocaleDateString : Z -> string)
        (data : list Project) :
  JS.join "," csvHeaders = csvHeaderLine /\
  convertToCSV Date_parse toLocaleDateString data
  = csvHeaderLine
    ++ String.concat EmptyString
         (map (fun p => JS.nl ++ csvRow Date_parse toLocaleDateString p) data) /\
  (forall p,
      csvRow Date_parse toLocaleDateString p
      = JS.Number_toString (id p)
        ++ "," ++ csvField (project_name p)
        ++ "," ++ csvField (location p)
        ++ "," ++ csvField (project_type p)
        ++ "," ++ csvField (stage p)
        ++ "," ++ csvField (stakeholders p)
        ++ "," ++ csvField (project_value p)
        ++ "," ++ csvField (source_link p)
        ++ "," ++ dateCell Date_parse toLocaleDateString (date_added p)) /\
  (forall field rest,
      startsWithQuote rest = false ->
      readQuoted (csvField field ++ rest)
      = Some (match field with
              | EmptyString => "Not specified"
              | String _ _ => field
              end, rest)) /\
  csvField EmptyString = q ++ "Not specified" ++ q /\
  (forall field,
      field <> EmptyString -> csvField field = q ++ JS.doubleQuotes field ++ q) /\
  csvField "   " = q ++ "   " ++ q /\
  csvField ("Acme, " ++ q ++ "Bob" ++ q ++ " Co")
  = q ++ "Acme, " ++ q ++ q ++ "Bob" ++ q ++ q ++ " Co" ++ q /\
  (forall d,
      (JS.isEmpty (JS.trim d) = true ->
       dateCell Date_parse toLocaleDateString d = NotSpecified) /\
      (Date_parse d = None ->
       dateCell Date_parse toLocaleDateString d = NotSpecified) /\
      (forall t,
          JS.isEmpty (JS.trim d) = false -> Date_parse d = Some t ->
          dateCell Date_parse toLocaleDateString d = toLocaleDateString t)).
Proof.
  split; [reflexivity|]. split.
  { unfold convertToCSV, JS.join. rewrite concat_cons_sep, map_map.
    reflexivity. }
  split.
  { intros p. unfold csvRow, JS.join. cbn [String.concat]. reflexivity. }
  split.
  { intros field rest Hrest. rewrite (readQuoted_csvField field rest Hrest).
    now destruct field. }
  split; [reflexivity|]. split.
  { intros field Hne. unfold csvField, JS.or_else.
    destruct field; [contradiction | reflexivity]. }
  split; [reflexivity|]. split; [reflexivity|].
  intros d. unfold dateCell. repeat split.
  - intros ->. now rewrite orb_true_r.
  - intros ->. now destruct (JS.isEmpty d || JS.isEmpty (JS.trim d)).
  - intros t Hb ->. rewrite Hb, orb_false_r.
    destruct d; [discriminate Hb | reflexivity].
Qed.

Lemma C4_convertToCSV_witness :
  readQuoted (csvField (stakeholders bridgeProject) ++ ",")
  = Some ("Acme Corp", ",") /\
  csvField (project_name blankNameProject) = q ++ "   " ++ q /\
  dateCell Sample.Date_parse Sample.toLocaleDateString "2024-03-01"
  = "3/1/2024".
Proof.
  destruct (C4_convertToCSV Sample.Date_parse Sample.toLocaleDateString
                            [bridgeProject])
    as [_ [_ [_ [Hq [_ [Hf [_ [_ Hd]]]]]]]].
  split; [|split].
  - apply (Hq (stakeholders bridgeProject)). reflexivity.
  - apply (Hf (project_name blankNameProject)). discriminate.
  - destruct (Hd "2024-03-01") as [_ [_ Ht]].
    apply (Ht 1709251200000); reflexivity.
Defined.

(** *** HTML export *)

(** C3. In the printable report the header row has the eight columns
    Project Name to Date Added, and every body row has nine cells: the
    project id in front, then the eight cells that belong to the header
    columns. *)
Theorem C3_html_row_cells
        (Date_parse : string -> option Z) (toLocaleDateString : Z -> string)
        (p : Project) :
  List.length htmlHeaderCells = 8%nat /\
  List.length (htmlRowCells Date_parse toLocaleDateString p) = 9%nat /\
  hd_error (htmlRowCells Date_parse toLocaleDateString p)
  = Some (JS.Number_toString (id p)) /\
  nth_error (htmlRowCells Date_parse toLocaleDateString p) 1
  = Some (JS.or_else (project_name p) NotSpecified) /\
  nth_error (htmlRowCells Date_parse toLocaleDateString p) 8
  = Some (dateCell Date_parse toLocaleDateString (date_added p)) /\
  occurrences "<th>" (htmlTable Date_parse toLocaleDateString []) = 8%nat /\
  occurrences "<td>"
    (htmlRow Sample.Date_parse Sample.toLocaleDateString bridgeProject)
  = 9%nat.
Proof. repeat split. Qed.

(** *** JSON export *)

Lemma skipWs_allWs (w s : string) :
  allWs w = true -> JSON.skipWs (w ++ s) = JSON.skipWs s.
Proof.
  induction w as [|c w IH]; simpl; [reflexivity|].
  intros H. apply andb_true_iff in H as [Hc Hw]. rewrite Hc. now apply IH.
Qed.

Lemma skipWs_stop (c : ascii) (s : string) :
  JSON.isWs c = false -> JSON.skipWs (String c s) = String c s.
Proof. intros H. simpl. now rewrite H. Qed.

Lemma allWs_append (a b : string) :
  allWs a = true -> allWs b = true -> allWs (a ++ b) = true.
Proof.
  induction a as [|c a IH]; simpl; [trivial|].
  intros H Hb. apply andb_true_iff in H as [Hc Ha].
  rewrite Hc. now apply IH.
Qed.

Lemma parseChars_quoteUnit (c : ascii) (t : string) :
  JSON.parseChars (JSON.quoteUnit c ++ t) = JSON.consUnit c (JSON.parseChars t).
Proof. destruct c as [[] [] [] [] [] [] [] []]; reflexivity. Qed.

Lemma parseChars_quoteBody (s rest : string) :
  JSON.parseChars (JSON.quoteBody s ++ q ++ rest) = Some (s, rest).
Proof.
  induction s as [|c s IH].
  - reflexivity.
  - cbn [JSON.quoteBody]. rewrite append_assoc, parseChars_quoteUnit, IH.
    reflexivity.
Qed.

Lemma readsBack_Str (indent s : string) : readsBack 1 indent (JSON.Str s).
Proof.
  intros f w rest Hf Hw _. destruct f as [|f]; [lia|].
  cbn [JSON.parseValue JSON.serialize]. rewrite skipWs_allWs by assumption.
  unfold JSON.quoteJSONString. rewrite !append_assoc.
  change (q ++ ?x) with (String JS.dquote x) at 1.
  rewrite skipWs_stop by reflexivity.
  rewrite Ascii.eqb_refl, parseChars_quoteBody. reflexivity.
Qed.

Lemma spanDigits_uint (u : Decimal.uint) (rest : string) :
  endsValue rest = true ->
  JSON.spanDigits (NilEmpty.string_of_uint u ++ rest)
  = (NilEmpty.string_of_uint u, rest).
Proof.
  intros Hrest. induction u as [|u IH|u IH|u IH|u IH|u IH|u IH|u IH|u IH|u IH|u IH];
    try (cbn [NilEmpty.string_of_uint append JSON.spanDigits];
         change (JSON.isDigit _) with true; cbn iota; now rewrite IH).
  cbn [NilEmpty.string_of_uint append].
  destruct rest as [|c rest]; [reflexivity|].
  cbn [endsValue] in Hrest. apply andb_true_iff in Hrest as [Hd _].
  apply negb_true_iff in Hd. cbn [JSON.spanDigits]. now rewrite Hd.
Qed.

Lemma to_uint_no_leading_zero (p : positive) (u : Decimal.uint) :
  Pos.to_uint p <> Decimal.D0 u.
Proof.
  intros E.
  assert (Hn : Decimal.unorm (Pos.to_uint p) = Pos.to_uint p).
  { rewrite <- (DecimalPos.Unsigned.to_of (Pos.to_uint p)).
    now rewrite DecimalPos.Unsigned.of_to. }
  rewrite E in Hn. unfold Decimal.unorm in Hn.
  destruct (Decimal.nzhead (Decimal.D0 u)) eqn:Hz;
    try (apply (DecimalFacts.nzhead_nonzero (Decimal.D0 u) u); congruence);
    try discriminate.
  injection Hn as <-. now apply (DecimalPos.Unsigned.to_uint_nonzero p).
Qed.

Lemma of_uint_to_uint (p : positive) : Z.of_uint (Pos.to_uint p) = Z.pos p.
Proof. unfold Z.of_uint. now rewrite DecimalPos.Unsigned.of_to. Qed.

Lemma parseDigits_to_uint (neg : bool) (p : positive) (rest : string) :
  endsValue rest = true ->
  JSON.parseDigits neg (NilEmpty.string_of_uint (Pos.to_uint p) ++ rest)
  = Some (if neg then Z.neg p else Z.pos p, rest).
Proof.
  intros Hrest. unfold JSON.parseDigits. rewrite spanDigits_uint by assumption.
  assert (Hc : JSON.continuesNumber rest = false).
  { destruct rest as [|c rest]; [reflexivity|].
    cbn [endsValue] in Hrest. apply andb_true_iff in Hrest as [_ Hc].
    now apply negb_true_iff in Hc. }
  pose proof (NilEmpty.usu (Pos.to_uint p)) as Hu.
  pose proof (of_uint_to_uint p) as Hz.
  pose proof (DecimalPos.Unsigned.to_uint_nonnil p) as Hnil.
  pose proof (to_uint_no_leading_zero p) as Hzero.
  destruct (Pos.to_uint p) as [|u|u|u|u|u|u|u|u|u|u];
    [ now elim Hnil | now elim (Hzero u) | .. ];
    cbn [NilEmpty.string_of_uint] in *;
    change (Ascii.eqb _ "0") with false; cbn [andb];
    rewrite Hc, Hu, Hz; now destruct neg.
Qed.

Lemma parseNumber_toString (n : Z) (rest : string) :
  endsValue rest = true ->
  JSON.parseNumber (JS.Number_toString n ++ rest) = Some (n, rest).
Proof.
  intros Hrest. unfold JS.Number_toString. destruct n as [|p|p].
  - assert (Hc : JSON.continuesNumber rest = false).
    { destruct rest as [|c rest]; [reflexivity|].
      cbn [endsValue] in Hrest. apply andb_true_iff in Hrest as [_ Hc].
      now apply negb_true_iff in Hc. }
    change (NilEmpty.string_of_int (Z.to_int 0) ++ rest)
      with (String "0" rest).
    cbn [JSON.parseNumber]. change (Ascii.eqb "0" "-") with false. cbn iota.
    unfold JSON.parseDigits.
    change (String "0" rest)
      with (NilEmpty.string_of_uint (Decimal.D0 Decimal.Nil) ++ rest).
    rewrite spanDigits_uint by assumption.
    cbn. now rewrite Hc.
  - cbn [Z.to_int NilEmpty.string_of_int].
    pose proof (parseDigits_to_uint false p rest Hrest) as H.
    pose proof (DecimalPos.Unsigned.to_uint_nonnil p) as Hnil.
    destruct (Pos.to_uint p) as [|u|u|u|u|u|u|u|u|u|u];
      [ now elim Hnil | .. ];
      cbn [NilEmpty.string_of_uint append] in *;
      cbn [JSON.parseNumber];
      change (Ascii.eqb _ "-") with false; cbn iota; exact H.
  - cbn [Z.to_int NilEmpty.string_of_int append].
    cbn [JSON.parseNumber]. change (Ascii.eqb "-" "-") with true. cbn iota.
    now apply parseDigits_to_uint.
Qed.

Lemma parseValue_number (f : nat) (c : ascii) (s : string) :
  opensNumber c = true ->
  JSON.parseValue (S f) (String c s)
  = JSON.withRest JSON.Num (JSON.parseNumber (String c s)).
Proof.
  destruct c as [[] [] [] [] [] [] [] []]; try discriminate; reflexivity.
Qed.

Lemma Number_toString_opens (n : Z) :
  exists c s, JS.Number_toString n = String c s /\ opensNumber c = true.
Proof.
  unfold JS.Number_toString. destruct n as [|p|p].
  - now exists "0"%char, EmptyString.
  - cbn [Z.to_int NilEmpty.string_of_int].
    pose proof (DecimalPos.Unsigned.to_uint_nonnil p) as Hnil.
    destruct (Pos.to_uint p); [now elim Hnil | ..];
      cbn [NilEmpty.string_of_uint]; eexists _, _; split; reflexivity.
  - cbn [Z.to_int NilEmpty.string_of_int]. eexists _, _; split; reflexivity.
Qed.

Lemma parseValue_skip (f : nat) (w s : string) :
  allWs w = true -> JSON.parseValue f (w ++ s) = JSON.parseValue f s.
Proof.
  intros Hw. destruct f as [|f]; [reflexivity|].
  cbn [JSON.parseValue]. now rewrite skipWs_allWs.
Qed.

Lemma readsBack_Num (indent : string) (n : Z) : readsBack 1 indent (JSON.Num n).
Proof.
  intros f w rest Hf Hw Hrest. destruct f as [|f]; [lia|].
  rewrite parseValue_skip by assumption. cbn [JSON.serialize].
  destruct (Number_toString_opens n) as [c [s [E Hc]]].
  pose proof (parseNumber_toString n rest Hrest) as H.
  rewrite E in *. cbn [append] in *.
  rewrite parseValue_number by assumption. now rewrite H.
Qed.

Lemma concat_one (sep x : string) : String.concat sep [x] = x.
Proof. reflexivity. Qed.

Lemma concat_two (sep x y : string) (l : list string) :
  String.concat sep (x :: y :: l) = x ++ sep ++ String.concat sep (y :: l).
Proof. reflexivity. Qed.

Lemma endsValue_closing (w : string) (c : ascii) (rest : string) :
  allWs w = true -> JSON.isWs c = false ->
  JSON.isDigit c = false -> JSON.continuesNumber (String c rest) = false ->
  endsValue (w ++ String c rest) = true.
Proof.
  intros Hw Hc Hd Hn. destruct w as [|x w].
  - cbn [append endsValue]. now rewrite Hd, Hn.
  - cbn [append endsValue]. cbn [allWs] in Hw.
    apply andb_true_iff in Hw as [Hx _].
    destruct x as [[] [] [] [] [] [] [] []]; try discriminate; reflexivity.
Qed.

Lemma parseValue_object (f : nat) (s1 : string) (d : ascii) (r : string) :
  JSON.skipWs s1 = String d r -> Ascii.eqb d "}" = false ->
  JSON.parseValue (S f) (String "{" s1)
  = JSON.withRest JSON.Obj (JSON.parseMembers f s1).
Proof.
  intros Hs Hd. cbn [JSON.parseValue]. rewrite skipWs_stop by reflexivity.
  change (Ascii.eqb "{" JS.dquote) with false.
  change (Ascii.eqb "{" "[") with false.
  change (Ascii.eqb "{" "{") with true. cbn iota.
  now rewrite Hs, Hd.
Qed.

Lemma parseValue_array (f : nat) (s1 : string) (d : ascii) (r : string) :
  JSON.skipWs s1 = String d r -> Ascii.eqb d "]" = false ->
  JSON.parseValue (S f) (String "[" s1)
  = JSON.withRest JSON.Arr (JSON.parseElements f s1).
Proof.
  intros Hs Hd. cbn [JSON.parseValue]. rewrite skipWs_stop by reflexivity.
  change (Ascii.eqb "[" JS.dquote) with false.
  change (Ascii.eqb "[" "[") with true. cbn iota.
  now rewrite Hs, Hd.
Qed.

Section Containers.

(** The fuel [F] that reads back every element, the indentation [ind]
    of the elements, the white space [w] that follows an opening
    bracket and a comma, and the white space [w2] before the closing
    bracket. *)
Variable F : nat.
Variables ind w w2 : string.
Hypothesis Hw : allWs w = true.
Hypothesis Hw2 : allWs w2 = true.

Lemma parseMembers_ok (rest : string) (ms : list (string * JSON.value)) :
  forall (m : string * JSON.value) (f : nat),
    (forall kv, In kv (m :: ms) -> readsBack F ind (snd kv)) ->
    (F + List.length (m :: ms) <= f)%nat ->
    JSON.parseMembers f
      (w ++ JS.join (String "," w)
              (map (fun m => JSON.quoteJSONString (fst m) ++ ": "
                             ++ JSON.serialize ind (snd m))
                   (m :: ms))
         ++ w2 ++ String "}" rest)
    = Some (m :: ms, rest).
Proof.
  unfold JS.join.
  induction ms as [|m2 ms IH]; intros [k v] f Hin Hf;
    (destruct f as [|f]; [cbn [List.length] in Hf; lia|]);
    pose proof (Hin (k, v) (or_introl eq_refl)) as Hv; cbn [snd] in Hv;
    cbn [JSON.parseMembers]; rewrite skipWs_allWs by exact Hw;
    cbn [map fst snd].
  - rewrite concat_one.
    unfold JSON.quoteJSONString. rewrite !append_assoc.
    change (q ++ ?x) with (String JS.dquote x) at 1.
    rewrite skipWs_stop by reflexivity.
    rewrite Ascii.eqb_refl, parseChars_quoteBody.
    change (": " ++ ?x) with (String ":" (" " ++ x)).
    rewrite skipWs_stop by reflexivity.
    rewrite Ascii.eqb_refl.
    rewrite (Hv f " " (w2 ++ String "}" rest));
      [ | cbn [List.length] in Hf; lia | reflexivity
        | now apply endsValue_closing ].
    rewrite skipWs_allWs by exact Hw2.
    rewrite skipWs_stop by reflexivity.
    reflexivity.
  - rewrite concat_two.
    unfold JSON.quoteJSONString at 1. rewrite !append_assoc.
    change (q ++ ?x) with (String JS.dquote x) at 1.
    rewrite skipWs_stop by reflexivity.
    rewrite Ascii.eqb_refl, parseChars_quoteBody.
    change (": " ++ ?x) with (String ":" (" " ++ x)) at 1.
    rewrite skipWs_stop by reflexivity.
    rewrite Ascii.eqb_refl.
    change (String "," w ++ ?x) with (String "," (w ++ x)).
    rewrite (Hv f " ");
      [ | cbn [List.length] in Hf; lia | reflexivity | reflexivity ].
    rewrite skipWs_stop by reflexivity.
    change (Ascii.eqb "," ",") with true. cbn iota.
    specialize (IH m2 f). cbn [map] in IH.
    rewrite IH; [reflexivity | | cbn [List.length] in *; lia].
    intros kv Hkv. apply Hin. now right.
Qed.

Lemma parseElements_ok (rest : string) (l : list JSON.value) :
  forall (v : JSON.value) (f : nat),
    (forall x, In x (v :: l) -> readsBack F ind x) ->
    (F + List.length (v :: l) <= f)%nat ->
    JSON.parseElements f
      (w ++ JS.join (String "," w) (map (JSON.serialize ind) (v :: l))
         ++ w2 ++ String "]" rest)
    = Some (v :: l, rest).
Proof.
  unfold JS.join.
  induction l as [|v2 l IH]; intros v f Hin Hf;
    (destruct f as [|f]; [cbn [List.length] in Hf; lia|]);
    pose proof (Hin v (or_introl eq_refl)) as Hv;
    cbn [JSON.parseElements map].
  - rewrite concat_one.
    rewrite (Hv f w (w2 ++ String "]" rest));
      [ | cbn [List.length] in Hf; lia | exact Hw
        | now apply endsValue_closing ].
    rewrite skipWs_allWs by exact Hw2.
    rewrite skipWs_stop by reflexivity.
    reflexivity.
  - rewrite concat_two, !append_assoc.
    change (String "," w ++ ?x) with (String "," (w ++ x)).
    rewrite (Hv f w);
      [ | cbn [List.length] in Hf; lia | exact Hw | reflexivity ].
    rewrite skipWs_stop by reflexivity.
    change (Ascii.eqb "," ",") with true. cbn iota.
    specialize (IH v2 f). cbn [map] in IH.
    rewrite IH; [reflexivity | | cbn [List.length] in *; lia].
    intros x Hx. apply Hin. now right.
Qed.

Lemma members_start (X : string) (m : string * JSON.value)
      (ms : list (string * JSON.value)) :
  exists r,
    JSON.skipWs
      (w ++ JS.join (String "," w)
              (map (fun m => JSON.quoteJSONString (fst m) ++ ": "
                             ++ JSON.serialize ind (snd m))
                   (m :: ms))
         ++ X)
    = String JS.dquote r.
Proof.
  unfold JS.join. rewrite skipWs_allWs by exact Hw.
  destruct ms as [|m2 ms]; cbn [map];
    [rewrite concat_one | rewrite concat_two];
    unfold JSON.quoteJSONString at 1; rewrite !append_assoc;
    change (q ++ ?x) with (String JS.dquote x) at 1;
    rewrite skipWs_stop by reflexivity; eexists; reflexivity.
Qed.

End Containers.

Lemma opensNumber_start (c : ascii) :
  opensNumber c = true -> JSON.isWs c = false /\ Ascii.eqb c "]" = false.
Proof.
  destruct c as [[] [] [] [] [] [] [] []]; try discriminate; now split.
Qed.

Lemma serialize_start (ind : string) (v : JSON.value) :
  exists c t,
    JSON.serialize ind v = String c t /\
    JSON.isWs c = false /\ Ascii.eqb c "]" = false.
Proof.
  destruct v as [|[]|n|s|[|x l]|[|m ms]]; cbn [JSON.serialize];
    try (eexists _, _; repeat split; reflexivity).
  cbn [JSON.serialize].
  destruct (Number_toString_opens n) as [c [t [E Hc]]].
  exists c, t. split; [exact E | now apply opensNumber_start].
Qed.

Lemma elements_start (ind w X : string) (v : JSON.value) (l : list JSON.value) :
  allWs w = true ->
  exists d r,
    JSON.skipWs
      (w ++ JS.join (String "," w) (map (JSON.serialize ind) (v :: l)) ++ X)
    = String d r /\ Ascii.eqb d "]" = false.
Proof.
  intros Hw. unfold JS.join. rewrite skipWs_allWs by exact Hw.
  destruct (serialize_start ind v) as [c [t [E [Hc Hd]]]].
  destruct l as [|v2 l]; cbn [map];
    [rewrite concat_one | rewrite concat_two];
    rewrite E; cbn [append]; rewrite skipWs_stop by exact Hc;
    eexists _, _; (split; [reflexivity | exact Hd]).
Qed.

Lemma allWs_line (ind : string) :
  allWs ind = true -> allWs (JS.nl ++ ind) = true.
Proof. intros H. cbn. exact H. Qed.

Lemma allWs_gap (ind : string) :
  allWs ind = true -> allWs (ind ++ JSON.gap) = true.
Proof. intros H. now apply allWs_append. Qed.

Lemma serialize_Obj_text (ind rest : string) (m : string * JSON.value)
      (ms : list (string * JSON.value)) :
  JSON.serialize ind (JSON.Obj (m :: ms)) ++ rest
  = String "{"
      ((JS.nl ++ ind ++ JSON.gap)
       ++ JS.join (String "," (JS.nl ++ ind ++ JSON.gap))
            (map (fun m => JSON.quoteJSONString (fst m) ++ ": "
                           ++ JSON.serialize (ind ++ JSON.gap) (snd m))
                 (m :: ms))
       ++ (JS.nl ++ ind) ++ String "}" rest).
Proof. cbn [JSON.serialize]. rewrite !append_assoc. reflexivity. Qed.

Lemma serialize_Arr_text (ind rest : string) (v : JSON.value)
      (l : list JSON.value) :
  JSON.serialize ind (JSON.Arr (v :: l)) ++ rest
  = String "["
      ((JS.nl ++ ind ++ JSON.gap)
       ++ JS.join (String "," (JS.nl ++ ind ++ JSON.gap))
            (map (JSON.serialize (ind ++ JSON.gap)) (v :: l))
       ++ (JS.nl ++ ind) ++ String "]" rest).
Proof. cbn [JSON.serialize]. rewrite !append_assoc. reflexivity. Qed.

Lemma readsBack_Obj (F : nat) (ind : string) (m : string * JSON.value)
      (ms : list (string * JSON.value)) :
  allWs ind = true ->
  (forall kv, In kv (m :: ms) -> readsBack F (ind ++ JSON.gap) (snd kv)) ->
  readsBack (S (F + List.length (m :: ms))) ind (JSON.Obj (m :: ms)).
Proof.
  intros Hind Hin f w rest Hf Hw Hrest.
  destruct f as [|f]; [lia|].
  rewrite parseValue_skip by assumption.
  rewrite serialize_Obj_text.
  assert (Hw1 : allWs (JS.nl ++ ind ++ JSON.gap) = true)
    by now apply allWs_line, allWs_gap.
  destruct (members_start (ind ++ JSON.gap) _ Hw1
                          ((JS.nl ++ ind) ++ String "}" rest) m ms) as [r Hr].
  rewrite (parseValue_object f _ _ _ Hr eq_refl).
  rewrite (parseMembers_ok F (ind ++ JSON.gap) _ (JS.nl ++ ind) Hw1);
    [reflexivity | now apply allWs_line | exact Hin | lia].
Qed.

Lemma readsBack_Arr (F : nat) (ind : string) (v : JSON.value)
      (l : list JSON.value) :
  allWs ind = true ->
  (forall x, In x (v :: l) -> readsBack F (ind ++ JSON.gap) x) ->
  readsBack (S (F + List.length (v :: l))) ind (JSON.Arr (v :: l)).
Proof.
  intros Hind Hin f w rest Hf Hw Hrest.
  destruct f as [|f]; [lia|].
  rewrite parseValue_skip by assumption.
  rewrite serialize_Arr_text.
  assert (Hw1 : allWs (JS.nl ++ ind ++ JSON.gap) = true)
    by now apply allWs_line, allWs_gap.
  destruct (elements_start (ind ++ JSON.gap) _
                           ((JS.nl ++ ind) ++ String "]" rest) v l Hw1)
    as [d [r [Hr Hd]]].
  rewrite (parseValue_array f _ _ _ Hr Hd).
  rewrite (parseElements_ok F (ind ++ JSON.gap) _ (JS.nl ++ ind) Hw1);
    [reflexivity | now apply allWs_line | exact Hin | lia].
Qed.

Lemma readsBack_Project (ind : string) (p : Project) :
  allWs ind = true -> readsBack 11 ind (Project_toJSON p).
Proof.
  intros Hind. unfold Project_toJSON.
  match goal with
  | |- readsBack _ _ (JSON.Obj (?m :: ?ms)) =>
      refine (readsBack_Obj 1 ind m ms Hind _)
  end.
  intros kv Hkv. cbn [In] in Hkv.
  repeat (destruct Hkv as [<-|Hkv];
          [first [apply readsBack_Num | apply readsBack_Str]|]).
  contradiction.
Qed.

Lemma length_concat_ge (K : nat) (sep : string) (l : list string) :
  (forall x, In x l -> (K <= String.length x)%nat) ->
  (K * List.length l <= String.length (String.concat sep l))%nat.
Proof.
  induction l as [|x l IH]; intros H; [simpl; lia|].
  assert (Hx : (K <= String.length x)%nat) by (apply H; now left).
  assert (Hl : (K * List.length l <= String.length (String.concat sep l))%nat)
    by (apply IH; intros y Hy; apply H; now right).
  destruct l as [|y l].
  - rewrite concat_one. cbn [List.length]. lia.
  - rewrite concat_two, !length_append. cbn [List.length] in *. lia.
Qed.

Lemma length_serialize_Project (ind : string) (p : Project) :
  (6 <= String.length (JSON.serialize ind (Project_toJSON p)))%nat.
Proof.
  unfold Project_toJSON.
  rewrite <- (append_empty_r (JSON.serialize _ _)), serialize_Obj_text.
  cbn [String.length]. rewrite !length_append. cbn [String.length JS.nl].
  unfold JSON.gap. cbn [String.length]. lia.
Qed.

Lemma fuel_jsonContent (p : Project) (data : list Project) :
  (11 + List.length (map Project_toJSON (p :: data))
   <= String.length (jsonContent (p :: data)))%nat.
Proof.
  unfold jsonContent, JSON.stringify. cbn [map].
  rewrite <- (append_empty_r (JSON.serialize _ _)), serialize_Arr_text.
  cbn [String.length]. rewrite !length_append.
  pose proof (length_concat_ge 6
                (String "," (JS.nl ++ EmptyString ++ JSON.gap))
                (map (JSON.serialize (EmptyString ++ JSON.gap))
                     (map Project_toJSON (p :: data)))) as H.
  rewrite !length_map in H. cbn [map] in H. unfold JS.join.
  cbn [List.length] in *. rewrite length_map.
  assert (H6 : (6 * S (List.length data)
                <= String.length
                     (String.concat
                        (String "," (JS.nl ++ EmptyString ++ JSON.gap))
                        (JSON.serialize (EmptyString ++ JSON.gap)
                                        (Project_toJSON p)
                         :: map (JSON.serialize (EmptyString ++ JSON.gap))
                                (map Project_toJSON data))))%nat).
  { apply H. intros x Hx.
    change (In x (map (JSON.serialize (EmptyString ++ JSON.gap))
                      (map Project_toJSON (p :: data)))) in Hx.
    rewrite map_map in Hx. apply in_map_iff in Hx as [p' [<- _]].
    apply length_serialize_Project. }
  cbn [map String.length JS.nl append JSON.gap] in *. lia.
Qed.

Lemma parse_jsonContent (data : list Project) :
  JSON.parse (jsonContent data) = Some (JSON.Arr (map Project_toJSON data)).
Proof.
  destruct data as [|p data]; [reflexivity|].
  pose proof (fuel_jsonContent p data) as Hfuel.
  unfold JSON.parse.
  assert (Hrb : readsBack (S (11 + List.length (map Project_toJSON (p :: data))))
                          EmptyString
                          (JSON.Arr (map Project_toJSON (p :: data)))).
  { cbn [map]. apply readsBack_Arr; [reflexivity|].
    intros x Hx.
    change (In x (map Project_toJSON (p :: data))) in Hx.
    apply in_map_iff in Hx as [p' [<- _]].
    now apply readsBack_Project. }
  specialize (Hrb (S (String.length (jsonContent (p :: data))))
                  EmptyString EmptyString).
  cbn [append] in Hrb. rewrite append_empty_r in Hrb.
  unfold jsonContent, JSON.stringify in *.
  rewrite Hrb; [reflexivity | lia | reflexivity | reflexivity].
Qed.

Lemma Project_ofJSON_toJSON (p : Project) :
  Project_ofJSON (Project_toJSON p) = Some p.
Proof. destruct p. reflexivity. Qed.

Lemma allSome_ofJSON (data : list Project) :
  allSome (map Project_ofJSON (map Project_toJSON data)) = Some data.
Proof.
  induction data as [|p data IH]; [reflexivity|].
  cbn [map allSome]. now rewrite Project_ofJSON_toJSON, IH.
Qed.

Lemma serialize_project (p : Project) :
  JSON.serialize JSON.gap (Project_toJSON p) = prettyProject p.
Proof.
  unfold Project_toJSON. cbn [JSON.serialize map fst snd].
  unfold prettyProject, prettyMember, JS.join, JSON.quoteJSONString, JSON.gap.
  cbn [String.concat]. rewrite !append_assoc. reflexivity.
Qed.

Lemma jsonContent_pretty (data : list Project) :
  jsonContent data = prettyArray data.
Proof.
  destruct data as [|p l]; [reflexivity|].
  unfold jsonContent, JSON.stringify, prettyArray.
  cbn [JSON.serialize map]. rewrite serialize_project.
  rewrite map_map, (map_ext _ _ serialize_project).
  reflexivity.
Qed.

(** C7. The JSON export of a project sequence is the pretty-printed
    array of the records (two spaces of indentation for a record, four
    for its members, one member per line, the raw values) and parses
    back to the array of the projects as given: every record comes back
    with the same nine field values, an empty text field as the empty
    string and not as the sentinel. *)
Theorem C7_json_round_trip (data : list Project) :
  JSON.parse (jsonContent data) = Some (JSON.Arr (map Project_toJSON data)) /\
  parseProjects (jsonContent data) = Some data /\
  (forall p, Project_ofJSON (Project_toJSON p) = Some p) /\
  (forall ind, JSON.serialize ind (JSON.Str EmptyString) = q ++ q) /\
  parseProjects (jsonContent [depotProject]) = Some [depotProject] /\
  jsonContent data = prettyArray data /\
  jsonContent [] = "[]" /\
  jsonContent [depotProject] = String.concat JS.nl depotJsonLines.
Proof.
  split; [apply parse_jsonContent|]. split.
  { unfold parseProjects. rewrite parse_jsonContent. apply allSome_ofJSON. }
  split; [exact Project_ofJSON_toJSON|]. split; [reflexivity|].
  split; [reflexivity|]. split; [apply jsonContent_pretty|].
  split; reflexivity.
Qed.

Example sample_dates :
  Sample.Date_parse "2024-03-01" = Some 1709251200000 /\
  Sample.Date_parse "1970-01-01" = Some 0 /\
  Sample.Date_parse "soon" = None /\
  Sample.toLocaleDateString 1709251200000 = "3/1/2024".
Proof. repeat split. Qed.

Example json_sample :
  parseProjects (jsonContent [bridgeProject; depotProject])
  = Some [bridgeProject; depotProject] /\
  jsonContent [] = "[]" /\
  JSON.parse "[ {} , -12, [1,2], true ]"
  = Some (JSON.Arr [JSON.Obj []; JSON.Num (-12);
                    JSON.Arr [JSON.Num 1; JSON.Num 2]; JSON.Bool true]) /\
  JSON.parse "[01]" = None.
Proof. repeat split. Qed.

(* ================================================================== *)
(** ** Further properties of the view-model                            *)
(* ================================================================== *)

(** *** Sorting with a comparator *)

Section SortFacts.

Variable A : Type.
Variable cmp : A -> A -> Z.

Lemma insertSorted_perm (x : A) (l : list A) :
  Permutation (insertSorted cmp x l) (x :: l).
Proof.
  induction l as [|y l IH]; simpl; [apply Permutation_refl|].
  destruct (cmp x y <=? 0)%Z; [apply Permutation_refl|].
  apply Permutation_trans with (y :: x :: l);
    [now apply perm_skip | apply perm_swap].
Qed.

Lemma Array_sort_perm (l : list A) : Permutation (Array_sort cmp l) l.
Proof.
  induction l as [|x l IH]; simpl; [apply perm_nil|].
  apply Permutation_trans with (x :: Array_sort cmp l);
    [apply insertSorted_perm | now apply perm_skip].
Qed.

Lemma Array_sort_length (l : list A) :
  List.length (Array_sort cmp l) = List.length l.
Proof. apply Permutation_length, Array_sort_perm. Qed.

(** A comparator that never puts each of two elements strictly after the
    other. *)
Hypothesis cmp_total : forall x y, 0 < cmp x y -> cmp y x <= 0.

Lemma insertSorted_Sorted (x : A) (l : list A) :
  Sorted (notAfter cmp) l -> Sorted (notAfter cmp) (insertSorted cmp x l).
Proof.
  induction l as [|y l IH]; intros Hs; simpl.
  - repeat constructor.
  - destruct (Z.leb_spec (cmp x y) 0) as [Hle|Hgt].
    + constructor; [exact Hs | constructor; exact Hle].
    + apply Sorted_inv in Hs as [Hs Hhd].
      constructor; [now apply IH|].
      destruct l as [|z l]; simpl.
      * constructor. now apply cmp_total.
      * destruct (Z.leb_spec (cmp x z) 0);
          constructor; [now apply cmp_total | now inversion Hhd].
Qed.

Lemma Array_sort_Sorted (l : list A) : Sorted (notAfter cmp) (Array_sort cmp l).
Proof.
  induction l as [|x l IH]; simpl; [constructor|].
  now apply insertSorted_Sorted.
Qed.

Hypothesis cmp_trans :
  forall x y z, cmp x y <= 0 -> cmp y z <= 0 -> cmp x z <= 0.

Lemma Array_sort_StronglySorted (l : list A) :
  StronglySorted (notAfter cmp) (Array_sort cmp l).
Proof.
  apply Sorted_StronglySorted; [|apply Array_sort_Sorted].
  intros x y z. apply cmp_trans.
Qed.

End SortFacts.

(** *** The order of strings *)

Lemma ltb_iff (s t : string) : String.ltb s t = true <-> String.compare s t = Lt.
Proof. unfold String.ltb. destruct (String.compare s t); split; congruence. Qed.

Lemma ltb_irrefl (s : string) : String.ltb s s = false.
Proof.
  assert (H : String.compare s s = Eq)
    by (apply (OrderedTypeEx.String_as_OT.cmp_eq s s); reflexivity).
  unfold String.ltb. now rewrite H.
Qed.

Lemma ltb_asym (s t : string) : String.ltb s t = true -> String.ltb t s = false.
Proof.
  unfold String.ltb. rewrite (String.compare_antisym t s).
  destruct (String.compare s t); simpl; congruence.
Qed.

Lemma ltb_trans (s t u : string) :
  String.ltb s t = true -> String.ltb t u = true -> String.ltb s u = true.
Proof.
  rewrite !ltb_iff.
  change String.compare with OrderedTypeEx.String_as_OT.cmp.
  rewrite !OrderedTypeEx.String_as_OT.cmp_lt.
  apply OrderedTypeEx.String_as_OT.lt_trans.
Qed.

Lemma ltb_connected (s t : string) :
  String.ltb s t = false -> String.ltb t s = false -> s = t.
Proof.
  unfold String.ltb. rewrite (String.compare_antisym t s).
  destruct (String.compare s t) eqn:E; simpl; try discriminate.
  intros _ _. now apply String.compare_eq_iff.
Qed.

Lemma ltb_neg_trans (s t u : string) :
  String.ltb t s = false -> String.ltb u t = false -> String.ltb u s = false.
Proof.
  intros H1 H2. destruct (String.ltb u s) eqn:H3; [|reflexivity].
  destruct (String.ltb s t) eqn:H4.
  - pose proof (ltb_trans _ _ _ H3 H4). congruence.
  - assert (s = t) by now apply ltb_connected. subst. congruence.
Qed.

Lemma defaultCompare_total (x y : string) :
  0 < defaultCompare x y -> defaultCompare y x <= 0.
Proof.
  unfold defaultCompare.
  destruct (String.ltb x y) eqn:H1; [lia|].
  destruct (String.ltb y x) eqn:H2; lia.
Qed.

Lemma defaultCompare_le (x y : string) :
  defaultCompare x y <= 0 <-> String.ltb y x = false.
Proof.
  unfold defaultCompare. destruct (String.ltb x y) eqn:H1.
  - split; [intros _; now apply ltb_asym | lia].
  - destruct (String.ltb y x); split; intros; try lia; congruence.
Qed.

Lemma defaultCompare_trans (x y z : string) :
  defaultCompare x y <= 0 -> defaultCompare y z <= 0 ->
  defaultCompare x z <= 0.
Proof. rewrite !defaultCompare_le. intros H1 H2. eapply ltb_neg_trans; eauto. Qed.

(** *** Filter options *)

Lemma existsb_eqb_In (x : string) (l : list string) :
  existsb (String.eqb x) l = true <-> In x l.
Proof.
  rewrite existsb_exists. split.
  - intros [y [Hy E]]. apply String.eqb_eq in E. now subst.
  - intros H. exists x. split; [exact H | apply String.eqb_refl].
Qed.

Lemma fold_Set_add_spec (values acc : list string) :
  NoDup acc ->
  NoDup (fold_left Set_add values acc) /\
  (forall x, In x (fold_left Set_add values acc) <-> In x acc \/ In x values).
Proof.
  revert acc; induction values as [|v values IH]; intros acc Hacc; simpl.
  - split; [exact Hacc | intros x; tauto].
  - assert (Hstep : NoDup (Set_add acc v) /\
                    (forall x, In x (Set_add acc v) <-> In x acc \/ v = x)).
    { unfold Set_add. destruct (existsb (String.eqb v) acc) eqn:E.
      - apply existsb_eqb_In in E. split; [exact Hacc|].
        intros x; split; [tauto | intros [H| <-]; assumption].
      - split.
        + apply NoDup_app; [exact Hacc | repeat constructor; simpl; tauto |].
          intros x Hx [<-|[]]. apply existsb_eqb_In in Hx. congruence.
        + intros x. rewrite in_app_iff. simpl. tauto. }
    destruct Hstep as [Hnd Hin]. destruct (IH _ Hnd) as [H1 H2].
    split; [exact H1|]. intros x. rewrite H2, Hin. tauto.
Qed.

Lemma Set_from_spec (values : list string) :
  NoDup (Set_from values) /\ (forall x, In x (Set_from values) <-> In x values).
Proof.
  destruct (fold_Set_add_spec values [] (NoDup_nil _)) as [H1 H2].
  split; [exact H1|]. intros x. rewrite (H2 x). simpl. tauto.
Qed.

Lemma StronglySorted_strict (l : list string) :
  NoDup l -> StronglySorted (notAfter defaultCompare) l ->
  StronglySorted (fun a b => String.ltb a b = true) l.
Proof.
  induction l as [|x l IH]; intros Hnd Hs; [constructor|].
  apply NoDup_cons_iff in Hnd as [Hx Hnd].
  apply StronglySorted_inv in Hs as [Hs Hall].
  constructor; [now apply IH|].
  rewrite Forall_forall in *. intros y Hy.
  specialize (Hall y Hy). apply defaultCompare_le in Hall.
  destruct (String.ltb x y) eqn:E; [reflexivity|].
  elim Hx. rewrite (ltb_connected x y E Hall). exact Hy.
Qed.

Lemma options_spec (values : list string) :
  StronglySorted (fun a b => String.ltb a b = true)
                 (Array_sort defaultCompare (Set_from values)) /\
  (forall x, In x (Array_sort defaultCompare (Set_from values)) <-> In x values).
Proof.
  destruct (Set_from_spec values) as [Hnd Hin].
  pose proof (Array_sort_perm _ defaultCompare (Set_from values)) as Hp.
  split.
  - apply StronglySorted_strict.
    + apply (Permutation_NoDup (Permutation_sym Hp) Hnd).
    + apply Array_sort_StronglySorted;
        [exact defaultCompare_total | exact defaultCompare_trans].
  - intros x. rewrite <- Hin. split; intros H.
    + apply (Permutation_in _ Hp H).
    + apply (Permutation_in _ (Permutation_sym Hp) H).
Qed.

Lemma options_of_map (f : Project -> string) (projects : list Project) :
  StronglySorted (fun a b => String.ltb a b = true)
                 (Array_sort defaultCompare (Set_from (map f projects))) /\
  forall x, In x (Array_sort defaultCompare (Set_from (map f projects))) <->
            exists p, In p projects /\ f p = x.
Proof.
  destruct (options_spec (map f projects)) as [Hs Hin].
  split; [exact Hs|]. intros x. rewrite Hin, in_map_iff.
  split; intros [p [H1 H2]]; exists p; now split.
Qed.

(** X1. Each of the three option lists is in strictly ascending
    code-unit order, so it has no duplicates, and holds exactly the
    values that occur among the projects: the substituted stages, the
    substituted types, the derived source types. *)
Theorem unique_options_sorted_exact (projects : list Project) :
  (StronglySorted (fun a b => String.ltb a b = true) (uniqueStages projects) /\
   forall x, In x (uniqueStages projects) <->
             exists p, In p projects /\ JS.or_else (stage p) NotSpecified = x) /\
  (StronglySorted (fun a b => String.ltb a b = true) (uniqueTypes projects) /\
   forall x, In x (uniqueTypes projects) <->
             exists p, In p projects /\
                       JS.or_else (project_type p) NotSpecified = x) /\
  (StronglySorted (fun a b => String.ltb a b = true)
                  (uniqueSourceTypes projects) /\
   forall x, In x (uniqueSourceTypes projects) <->
             exists p, In p projects /\ Page.getSourceType (source_link p) = x).
Proof.
  unfold uniqueStages, uniqueTypes, uniqueSourceTypes.
  split; [|split]; apply options_of_map.
Qed.

Lemma StronglySorted_ltb_NoDup (l : list string) :
  StronglySorted (fun a b => String.ltb a b = true) l -> NoDup l.
Proof.
  induction 1 as [|x l Hs IH Hall]; constructor; [|exact IH].
  intros Hx. rewrite Forall_forall in Hall. specialize (Hall x Hx).
  rewrite ltb_irrefl in Hall. discriminate.
Qed.

Lemma getSourceType_cases (s : string) :
  In (Page.getSourceType s) ["Not specified"; "PDF"; "Texas"; "Website"].
Proof.
  unfold Page.getSourceType. simpl.
  destruct (JS.isEmpty s); [now left|].
  destruct (JS.endsWith s ".pdf"); [now right; left|].
  destruct (JS.startsWith s TexasPrefix); [now right; right; left|].
  now right; right; right; left.
Qed.

Lemma or_else_nonempty (s : string) : JS.or_else s NotSpecified <> EmptyString.
Proof. unfold JS.or_else. destruct s; discriminate. Qed.

(** X2. No option list ever holds the empty string: a blank stage or type
    shows up as the sentinel option, so no option coincides with the
    "all" entry of its select, whose value is the empty string. *)
Theorem unique_options_nonempty (projects : list Project) :
  ~ In EmptyString (uniqueStages projects) /\
  ~ In EmptyString (uniqueTypes projects) /\
  ~ In EmptyString (uniqueSourceTypes projects).
Proof.
  pose proof (proj2 (options_of_map
                       (fun p => JS.or_else (stage p) NotSpecified) projects))
    as H1.
  pose proof (proj2 (options_of_map
                       (fun p => JS.or_else (project_type p) NotSpecified)
                       projects)) as H2.
  pose proof (proj2 (options_of_map
                       (fun p => Page.getSourceType (source_link p)) projects))
    as H3.
  fold (uniqueStages projects) in H1. fold (uniqueTypes projects) in H2.
  fold (uniqueSourceTypes projects) in H3.
  repeat split; intros H.
  - apply H1 in H as [p [_ E]]. now apply (or_else_nonempty (stage p)).
  - apply H2 in H as [p [_ E]]. now apply (or_else_nonempty (project_type p)).
  - apply H3 in H as [p [_ E]].
    pose proof (getSourceType_cases (source_link p)) as Hc. rewrite E in Hc.
    simpl in Hc. intuition discriminate.
Qed.

(** X3. The source-type options are among Not specified, PDF, Texas and
    Website, so the select never offers more than four of them. *)
Theorem uniqueSourceTypes_bounded (projects : list Project) :
  (forall x, In x (uniqueSourceTypes projects) ->
             In x ["Not specified"; "PDF"; "Texas"; "Website"]) /\
  (List.length (uniqueSourceTypes projects) <= 4)%nat.
Proof.
  destruct (options_of_map (fun p => Page.getSourceType (source_link p))
                           projects) as [Hs Hin].
  fold (uniqueSourceTypes projects) in Hs, Hin.
  assert (Hincl : incl (uniqueSourceTypes projects)
                       ["Not specified"; "PDF"; "Texas"; "Website"]).
  { intros x Hx. apply Hin in Hx as [p [_ <-]]. apply getSourceType_cases. }
  split; [exact Hincl|].
  apply (NoDup_incl_length (StronglySorted_ltb_NoDup _ Hs) Hincl).
Qed.

(** *** Filters and search *)

Lemma filter_all {A : Type} (f : A -> bool) (l : list A) :
  (forall x, In x l -> f x = true) -> filter f l = l.
Proof.
  induction l as [|x l IH]; intros H; simpl; [reflexivity|].
  rewrite (H x (or_introl eq_refl)), IH; [reflexivity|].
  intros y Hy. apply H. now right.
Qed.

Lemma filter_nonempty {A : Type} (f : A -> bool) (l : list A) :
  filter f l <> [] <-> exists x, In x l /\ f x = true.
Proof.
  split.
  - destruct (filter f l) as [|x r] eqn:E; [congruence|].
    intros _. exists x. apply filter_In. rewrite E. now left.
  - intros [x Hx] E. apply filter_In in Hx. rewrite E in Hx. exact Hx.
Qed.

Lemma matchesSearch_empty (p : Project) : matchesSearch EmptyString p = true.
Proof.
  apply matchesSearch_contains. now exists EmptyString, (searchableText p).
Qed.

Lemma no_active_filters (st : ViewState) :
  hasActiveFilters st = false <->
  searchTerm st = EmptyString /\ filterStage st = EmptyString /\
  filterType st = EmptyString /\ filterSource st = EmptyString.
Proof.
  unfold hasActiveFilters.
  destruct (searchTerm st), (filterStage st), (filterType st),
    (filterSource st); simpl; split; intros H;
    try discriminate; try reflexivity; try (repeat split; reflexivity);
    destruct H as [H1 [H2 [H3 H4]]]; discriminate.
Qed.

(** X4. Without an active filter every project passes; in particular
    clearing the filters always brings back the whole project list and
    hides the banner of active filters. *)
Theorem no_filter_shows_all (projects : list Project) (st : ViewState) :
  (hasActiveFilters st = false -> filtered projects st = projects) /\
  hasActiveFilters (clearFilters st) = false /\
  filtered projects (clearFilters st) = projects.
Proof.
  assert (H : forall s, hasActiveFilters s = false ->
                        filtered projects s = projects).
  { intros s Hs. apply no_active_filters in Hs as [H1 [H2 [H3 H4]]].
    unfold filtered. apply filter_all. intros p _.
    unfold passes, matchesStage, matchesType, matchesSource.
    rewrite H1, H2, H3, H4, matchesSearch_empty. reflexivity. }
  split; [exact (H st)|]. split; [reflexivity|]. now apply H.
Qed.

Lemma no_filter_shows_all_witness :
  filtered [bridgeProject; depotProject] initialState
  = [bridgeProject; depotProject].
Proof.
  exact (proj1 (no_filter_shows_all [bridgeProject; depotProject] initialState)
               eq_refl).
Defined.

Lemma matchesFilter_nonempty (x actual : string) :
  x <> EmptyString -> matchesFilter x actual = true <-> actual = x.
Proof.
  intros Hx. unfold matchesFilter. destruct x; [contradiction|]. simpl.
  apply String.eqb_eq.
Qed.

(** X5. With nothing else filtering, choosing a value in one of the three
    selects leaves at least one row exactly when the value is one of
    the options of that select. *)
Theorem option_selects_some
        (projects : list Project) (st : ViewState) (x : string) :
  hasActiveFilters st = false -> x <> EmptyString ->
  (filtered projects (withFilterStage x st) <> []
   <-> In x (uniqueStages projects)) /\
  (filtered projects (withFilterType x st) <> []
   <-> In x (uniqueTypes projects)) /\
  (filtered projects (withFilterSource x st) <> []
   <-> In x (uniqueSourceTypes projects)).
Proof.
  intros Hs Hx. apply no_active_filters in Hs as [H1 [H2 [H3 H4]]].
  pose proof (proj2 (options_of_map
                       (fun p => JS.or_else (stage p) NotSpecified) projects))
    as Ha.
  pose proof (proj2 (options_of_map
                       (fun p => JS.or_else (project_type p) NotSpecified)
                       projects)) as Hb.
  pose proof (proj2 (options_of_map
                       (fun p => Page.getSourceType (source_link p)) projects))
    as Hc.
  fold (uniqueStages projects) in Ha. fold (uniqueTypes projects) in Hb.
  fold (uniqueSourceTypes projects) in Hc.
  unfold filtered. rewrite !filter_nonempty, Ha, Hb, Hc.
  unfold passes, matchesStage, matchesType, matchesSource; simpl.
  rewrite H1, H2, H3, H4.
  repeat split; intros [p [Hp E]]; exists p; (split; [exact Hp|]);
    rewrite ?matchesSearch_empty in *; simpl in *;
    rewrite ?andb_true_r in *;
    first [ now apply (matchesFilter_nonempty x _ Hx) in E
          | now apply (matchesFilter_nonempty x _ Hx) ].
Qed.

Lemma option_selects_some_witness :
  filtered [bridgeProject; depotProject]
           (withFilterStage "Approved" initialState) <> [] /\
  In "Not specified" (uniqueStages [bridgeProject; depotProject]).
Proof.
  destruct (option_selects_some [bridgeProject; depotProject] initialState
              "Approved" eq_refl) as [H _]; [discriminate|].
  destruct (option_selects_some [bridgeProject; depotProject] initialState
              "Not specified" eq_refl) as [H' _]; [discriminate|].
  split.
  - apply H. vm_compute. now left.
  - apply H'. discriminate.
Defined.

(** A text that contains a lower-cased term contains every lower-cased
    stretch of it; the text is any string, the term one of code units
    below 256. *)
Lemma includes_lowered_part (text before term after : string) :
  JS.includes text (JS.toLowerCase (before ++ term ++ after)) = true ->
  JS.includes text (JS.toLowerCase term) = true.
Proof.
  rewrite !includes_iff, !toLowerCase_append. intros [pre [post E]].
  exists (pre ++ JS.toLowerCase before), (JS.toLowerCase after ++ post).
  rewrite E, !append_assoc. reflexivity.
Qed.

(** X6. Typing more never finds more: for a search term made of code
    units below 256, where lower-casing works unit by unit, a project
    that matches the term matches every stretch of that term as well.
    Nothing is used about how the text of the project is lower-cased. *)
Theorem search_narrows (before term after : string) (p : Project) :
  matchesSearch (before ++ term ++ after) p = true ->
  matchesSearch term p = true.
Proof. unfold matchesSearch. apply includes_lowered_part. Qed.

Lemma search_narrows_witness : matchesSearch "corp" bridgeProject = true.
Proof.
  apply (search_narrows "acme " "corp" EmptyString bridgeProject).
  reflexivity.
Defined.

Lemma concat_In (sep x : string) (l : list string) :
  In x l -> exists before after, String.concat sep l = before ++ x ++ after.
Proof.
  intros H. apply in_split in H as [l1 [l2 ->]]. apply concat_middle.
Qed.

(** X7. The search looks at the substituted values: a project with an
    empty text field, or with the id 0, matches the term not specified
    whatever its other fields hold. *)
Theorem search_finds_sentinel (p : Project) :
  id p = 0 \/ project_name p = EmptyString \/ location p = EmptyString \/
  project_type p = EmptyString \/ stage p = EmptyString \/
  stakeholders p = EmptyString \/ project_value p = EmptyString \/
  date_added p = EmptyString \/ source_link p = EmptyString ->
  matchesSearch "not specified" p = true.
Proof.
  intros H. apply matchesSearch_contains. unfold searchableText, JS.join.
  assert (Hin : In NotSpecified (map Value.toString (searchableValues p))).
  { unfold searchableValues, Object_values. cbn [map In].
    unfold Value.or_else; simpl.
    destruct H as [H|[H|[H|[H|[H|[H|[H|[H|H]]]]]]]]; rewrite H; simpl; tauto. }
  destruct (concat_In " " _ _ Hin) as [before [after E]].
  rewrite E, !toLowerCase_append.
  now exists (JS.toLowerCase before), (JS.toLowerCase after).
Qed.

Lemma search_finds_sentinel_witness :
  matchesSearch "not specified" depotProject = true.
Proof.
  apply search_finds_sentinel. right; right; right; right; left. reflexivity.
Defined.

(** *** The comparator *)

Ltac zbool :=
  repeat match goal with
         | |- context [Z.eqb ?a ?b] => destruct (Z.eqb_spec a b)
         | |- context [Z.ltb ?a ?b] => destruct (Z.ltb_spec a b)
         | H : context [Z.eqb ?a ?b] |- _ => destruct (Z.eqb_spec a b)
         | H : context [Z.ltb ?a ?b] |- _ => destruct (Z.ltb_spec a b)
         end.

Lemma Value_lt_asym (a b : value) :
  Value.lt a b = true -> Value.lt b a = false.
Proof.
  destruct a, b; simpl; try reflexivity.
  - intros H. zbool; try reflexivity; try discriminate; lia.
  - apply ltb_asym.
Qed.

Lemma compareValues_antisym (dir : SortDirection) (a b : value) :
  compareValues dir b a = - compareValues dir a b.
Proof.
  unfold compareValues.
  destruct (isNotSpecified a), (isNotSpecified b), dir; simpl;
    try reflexivity;
    rewrite (andb_comm (Value.isString b));
    destruct (Value.isString a && Value.isString b); unfold Value.gt;
    match goal with
    | |- context [Value.lt ?x ?y] =>
        destruct (Value.lt x y) eqn:E1; destruct (Value.lt y x) eqn:E2;
        try reflexivity;
        apply Value_lt_asym in E1; congruence
    end.
Qed.

Lemma dateBlock_swap (Date_parse : string -> option Z) (a b : value) :
  dateBlock Date_parse b a =
  match dateBlock Date_parse a b with
  | inl r => inl (- r)
  | inr (x, y) => inr (y, x)
  end.
Proof.
  unfold dateBlock.
  destruct (isNotSpecified a), (isNotSpecified b); simpl; try reflexivity.
  destruct (Date_parse (Value.toString a)), (Date_parse (Value.toString b));
    reflexivity.
Qed.

Lemma compareProjects_antisym
      (Date_parse : string -> option Z) (field : SortField)
      (dir : SortDirection) (a b : Project) :
  compareProjects Date_parse field dir b a
  = - compareProjects Date_parse field dir a b.
Proof.
  unfold compareProjects.
  destruct field; try apply compareValues_antisym.
  rewrite dateBlock_swap.
  destruct (dateBlock Date_parse (getField K_date_added a)
                      (getField K_date_added b)) as [r|[x y]];
    [reflexivity | apply compareValues_antisym].
Qed.

(** When a comparison of two texts is not positive. *)
Lemma compareValues_text_le (dir : SortDirection) (s t : string) :
  compareValues dir (VStr s) (VStr t) <= 0 <->
  match dir with
  | asc =>
      isNotSpecified (VStr t) = true \/
      (isNotSpecified (VStr s) = false /\
       String.ltb (JS.toLowerCase t) (JS.toLowerCase s) = false)
  | desc =>
      isNotSpecified (VStr s) = true \/
      (isNotSpecified (VStr t) = false /\
       String.ltb (JS.toLowerCase s) (JS.toLowerCase t) = false)
  end.
Proof.
  unfold compareValues.
  destruct (isNotSpecified (VStr s)), (isNotSpecified (VStr t)), dir; simpl;
    try (split; [intros _; now left | lia]);
    try (split; [lia | intros [H|[H _]]; discriminate]);
    unfold Value.gt; simpl;
    destruct (String.ltb (JS.toLowerCase s) (JS.toLowerCase t)) eqn:E1;
    destruct (String.ltb (JS.toLowerCase t) (JS.toLowerCase s)) eqn:E2;
    try (apply ltb_asym in E1; congruence);
    split; try lia; try (intros _; right; now split);
    intros [H|[_ H]]; discriminate.
Qed.

Lemma compareValues_text_trans (dir : SortDirection) (s t u : string) :
  compareValues dir (VStr s) (VStr t) <= 0 ->
  compareValues dir (VStr t) (VStr u) <= 0 ->
  compareValues dir (VStr s) (VStr u) <= 0.
Proof.
  rewrite !compareValues_text_le. destruct dir.
  - intros [H1|[H1 L1]] [H2|[H2 L2]]; try (now left); try congruence.
    right. split; [exact H1|]. eapply ltb_neg_trans; eauto.
  - intros [H1|[H1 L1]] [H2|[H2 L2]]; try (now left); try congruence.
    right. split; [exact H2|]. eapply ltb_neg_trans; eauto.
Qed.

Lemma opensNumber_not_space (c : ascii) :
  opensNumber c = true -> JS.isWhiteSpace c = false.
Proof. destruct c as [[] [] [] [] [] [] [] []]; try discriminate; reflexivity. Qed.

Lemma isNotSpecified_num (n : Z) : isNotSpecified (VNum n) = (n =? 0)%Z.
Proof.
  unfold isNotSpecified. simpl. rewrite negb_involutive.
  destruct (Number_toString_opens n) as [c [s [E Hc]]]. rewrite E.
  apply opensNumber_not_space in Hc.
  unfold JS.trim. cbn [JS.trimStart]. rewrite Hc. cbn [JS.trimEnd].
  rewrite Hc, andb_false_r. simpl. now rewrite !orb_false_r.
Qed.

Lemma compareValues_num_trans (dir : SortDirection) (x y z : Z) :
  compareValues dir (VNum x) (VNum y) <= 0 ->
  compareValues dir (VNum y) (VNum z) <= 0 ->
  compareValues dir (VNum x) (VNum z) <= 0.
Proof.
  unfold compareValues, Value.gt. rewrite !isNotSpecified_num. simpl.
  destruct dir; simpl; zbool; simpl; lia.
Qed.

Lemma compareProjects_trans
      (Date_parse : string -> option Z) (field : SortField)
      (dir : SortDirection) (a b c : Project) :
  compareProjects Date_parse field dir a b <= 0 ->
  compareProjects Date_parse field dir b c <= 0 ->
  compareProjects Date_parse field dir a c <= 0.
Proof.
  unfold compareProjects.
  destruct field; simpl getField;
    try apply compareValues_text_trans; try apply compareValues_num_trans.
  unfold dateBlock. simpl Value.toString.
  destruct (isNotSpecified (VStr (date_added a))),
    (isNotSpecified (VStr (date_added b))),
    (isNotSpecified (VStr (date_added c))); simpl; try lia;
    destruct (Date_parse (date_added a)), (Date_parse (date_added b)),
      (Date_parse (date_added c)); try lia.
  apply compareValues_num_trans.
Qed.

(** X8. The comparator is consistent in every field and direction:
    swapping the two records negates the result, and not-after is
    transitive; so the order of the sorted view does not depend on the
    sorting algorithm of the engine. *)
Theorem comparator_consistent
        (Date_parse : string -> option Z) (field : SortField)
        (dir : SortDirection) :
  (forall a b,
      compareProjects Date_parse field dir b a
      = - compareProjects Date_parse field dir a b) /\
  (forall a b c,
      compareProjects Date_parse field dir a b <= 0 ->
      compareProjects Date_parse field dir b c <= 0 ->
      compareProjects Date_parse field dir a c <= 0).
Proof.
  split; [apply compareProjects_antisym | apply compareProjects_trans].
Qed.

Lemma view_sorted
      (Date_parse : string -> option Z) (projects : list Project)
      (st : ViewState) :
  StronglySorted
    (notAfter (compareProjects Date_parse (sortField st) (sortDirection st)))
    (filteredAndSortedProjects Date_parse projects st).
Proof.
  unfold filteredAndSortedProjects. apply Array_sort_StronglySorted.
  - intros x y H. rewrite compareProjects_antisym. lia.
  - apply compareProjects_trans.
Qed.

Lemma view_perm
      (Date_parse : string -> option Z) (projects : list Project)
      (st : ViewState) :
  Permutation (filteredAndSortedProjects Date_parse projects st)
              (filtered projects st).
Proof. apply Array_sort_perm. Qed.

(** X9. The sorted view holds exactly the projects that pass the
    filters, each as often as in the fetched list, and it is ordered by
    the comparator: no row comes before a row that the comparator puts
    strictly in front of it. *)
Theorem view_is_sorted_filter
        (Date_parse : string -> option Z) (projects : list Project)
        (st : ViewState) :
  Permutation (filteredAndSortedProjects Date_parse projects st)
              (filter (passes st) projects) /\
  (forall p, In p (filteredAndSortedProjects Date_parse projects st) <->
             In p projects /\ passes st p = true) /\
  List.length (filteredAndSortedProjects Date_parse projects st)
  = List.length (filtered projects st) /\
  StronglySorted
    (notAfter (compareProjects Date_parse (sortField st) (sortDirection st)))
    (filteredAndSortedProjects Date_parse projects st).
Proof.
  pose proof (view_perm Date_parse projects st) as Hp.
  split; [exact Hp|]. split.
  { intros p. rewrite <- filter_In. split; intros H.
    - apply (Permutation_in _ Hp H).
    - apply (Permutation_in _ (Permutation_sym Hp) H). }
  split; [apply (Permutation_length Hp) | apply view_sorted].
Qed.

Lemma StronglySorted_split {A : Type} (R : A -> A -> Prop)
      (before mid after : list A) (a b : A) :
  StronglySorted R (before ++ a :: mid ++ b :: after) -> R a b.
Proof.
  induction before as [|x before IH]; simpl; intros H.
  - apply StronglySorted_inv in H as [_ H]. rewrite Forall_forall in H.
    apply H. apply in_or_app. right. now left.
  - apply StronglySorted_inv in H as [H _]. now apply IH.
Qed.

(** X10. Sorting by date_added, in either direction, or by any field in
    ascending direction, every row that stands anywhere behind a row with
    a missing sort value has a missing sort value too: the rows with
    present values come first. *)
Theorem view_missing_last
        (Date_parse : string -> option Z) (projects : list Project)
        (st : ViewState) (before mid after : list Project) (a b : Project) :
  sortField st = K_date_added \/ sortDirection st = asc ->
  filteredAndSortedProjects Date_parse projects st
  = (before ++ a :: mid ++ b :: after)%list ->
  missingValue Date_parse (sortField st) a = true ->
  missingValue Date_parse (sortField st) b = true.
Proof.
  intros Hcase Hview Ha.
  destruct (missingValue Date_parse (sortField st) b) eqn:Hb; [reflexivity|].
  pose proof (view_sorted Date_parse projects st) as Hs.
  rewrite Hview in Hs. apply StronglySorted_split in Hs.
  unfold notAfter in Hs.
  destruct Hcase as [Hf|Hd].
  - rewrite Hf in *.
    destruct (date_added_missing_last Date_parse (sortDirection st) a b Ha Hb)
      as [H _]. lia.
  - rewrite Hd in *.
    destruct (asc_missing_last Date_parse (sortField st) a b Ha Hb) as [H _].
    lia.
Qed.

Lemma view_missing_last_witness :
  filteredAndSortedProjects Sample.Date_parse
    [undatedProject; bridgeProject; misdatedProject] initialState
  = [bridgeProject; misdatedProject; undatedProject] /\
  missingValue Sample.Date_parse K_date_added undatedProject = true.
Proof.
  assert (Hview : filteredAndSortedProjects Sample.Date_parse
                    [undatedProject; bridgeProject; misdatedProject]
                    initialState
                  = ([bridgeProject] ++ misdatedProject :: []
                       ++ undatedProject :: [])%list) by reflexivity.
  split; [exact Hview|].
  exact (view_missing_last Sample.Date_parse
           [undatedProject; bridgeProject; misdatedProject] initialState
           [bridgeProject] [] [] misdatedProject undatedProject
           (or_introl eq_refl) Hview eq_refl).
Defined.

(** X11. A date that parses to the time value 0 (the epoch) passes the
    date block but counts as not specified in the general branch: in
    ascending order it is put after every other valid date, even a later
    one. *)
Theorem epoch_date_sorts_last
        (Date_parse : string -> option Z) (a b : Project) (t : Z) :
  missingText (date_added a) = false -> missingText (date_added b) = false ->
  Date_parse (date_added a) = Some 0 -> Date_parse (date_added b) = Some t ->
  0 < t ->
  compareProjects Date_parse K_date_added asc a b = 1.
Proof.
  intros Ha Hb Pa Pb Ht.
  unfold compareProjects, dateBlock. simpl getField.
  rewrite !isNotSpecified_text, Ha, Hb. simpl. rewrite Pa, Pb.
  unfold compareValues. rewrite !isNotSpecified_num.
  destruct (Z.eqb_spec t 0); [lia | reflexivity].
Qed.

Lemma epoch_date_sorts_last_witness :
  compareProjects Sample.Date_parse K_date_added asc epochProject depotProject
  = 1.
Proof.
  apply (epoch_date_sorts_last Sample.Date_parse epochProject depotProject
                               1709251200000); reflexivity.
Defined.

(** *** Pages *)

Lemma firstn_plus {A : Type} (a b : nat) (l : list A) :
  firstn (a + b) l = (firstn a l ++ firstn b (skipn a l))%list.
Proof.
  revert l; induction a as [|a IH]; intros l; [reflexivity|].
  destruct l as [|x l]; simpl; [now rewrite firstn_nil | now rewrite IH].
Qed.

Lemma pageRows_window {A : Type} (rows : list A) (st : ViewState) (n : nat) :
  0 < itemsPerPage st ->
  pageRows rows st (Z.of_nat (S n))
  = firstn (Z.to_nat (itemsPerPage st))
           (skipn (n * Z.to_nat (itemsPerPage st)) rows).
Proof.
  intros Hps. unfold pageRows, paginatedProjects, startIndex.
  cbn [currentPage itemsPerPage setCurrentPage].
  replace (Z.of_nat (S n) - 1) with (Z.of_nat n) by lia.
  rewrite Array_slice_window by nia. do 2 f_equal. nia.
Qed.

Lemma pages_prefix {A : Type} (rows : list A) (st : ViewState) (n : nat) :
  0 < itemsPerPage st ->
  List.concat (map (fun i => pageRows rows st (Z.of_nat i)) (seq 1 n))
  = firstn (n * Z.to_nat (itemsPerPage st)) rows.
Proof.
  intros Hps. induction n as [|n IH]; [reflexivity|].
  rewrite seq_S, map_app, concat_app, IH. cbn [map List.concat Nat.add].
  rewrite app_nil_r, pageRows_window by assumption.
  replace (S n * Z.to_nat (itemsPerPage st))%nat
    with (n * Z.to_nat (itemsPerPage st) + Z.to_nat (itemsPerPage st))%nat
    by lia.
  now rewrite firstn_plus.
Qed.

(** X12. With a positive page size the pages 1 to totalPages, put one
    after the other, give back the rows: every row is on exactly one
    page, in order. *)
Theorem pages_partition_rows {A : Type} (rows : list A) (st : ViewState)
        (k : Z) :
  0 < itemsPerPage st -> totalPages rows st = Some k ->
  List.concat (map (fun i => pageRows rows st (Z.of_nat i)) (seq 1 (Z.to_nat k)))
  = rows.
Proof.
  intros Hps Hk.
  destruct (Math_ceil_div_spec (Z.of_nat (List.length rows))
                               (itemsPerPage st) Hps) as [k' [Hk' Hb]].
  unfold totalPages in Hk. rewrite Hk in Hk'. injection Hk' as <-.
  rewrite pages_prefix by assumption.
  apply firstn_all2. nia.
Qed.

Lemma pages_partition_rows_witness :
  List.concat (map (fun i => pageRows (seq 0 60) initialState (Z.of_nat i))
              (seq 1 3))
  = seq 0 60.
Proof.
  apply (pages_partition_rows (seq 0 60) initialState 3); [simpl; lia|].
  reflexivity.
Defined.

(** *** The controls *)

Section DashboardFacts.

Variable Date_parse : string -> option Z.
Variable projects : list Project.

Lemma viewRows_setCurrentPage (n : Z) (st : ViewState) :
  viewRows Date_parse projects (setCurrentPage n st)
  = viewRows Date_parse projects st.
Proof. reflexivity. Qed.

Lemma options_positive (n : Z) : In n ITEMS_PER_PAGE_OPTIONS -> 0 < n.
Proof. simpl. intros [H|[H|[H|[H|[]]]]]; lia. Qed.

Lemma existsb_Zeqb_In (n : Z) (l : list Z) :
  existsb (Z.eqb n) l = true -> In n l.
Proof.
  rewrite existsb_exists. intros [y [Hy E]]. apply Z.eqb_eq in E. now subst.
Qed.

Lemma SortField_eqb_eq (a b : SortField) : SortField_eqb a b = true -> a = b.
Proof. destruct a, b; simpl; congruence. Qed.

Lemma existsb_SortField_In (key : SortField) (l : list SortField) :
  existsb (SortField_eqb key) l = true -> In key l.
Proof.
  rewrite existsb_exists. intros [y [Hy E]].
  apply SortField_eqb_eq in E. now subst.
Qed.

Lemma click_keeps_range (c : Control) (st st' : ViewState) :
  pageInRange Date_parse projects st ->
  click Date_parse projects c st = Some st' ->
  pageInRange Date_parse projects st'.
Proof.
  intros [Hpage [Hps [Hkey Hk]]].
  pose proof (options_positive _ Hps) as Hpos.
  destruct (Math_ceil_div_spec
              (Z.of_nat (List.length (viewRows Date_parse projects st)))
              (itemsPerPage st) Hpos) as [k [Ek Hb]].
  fold (totalPages (viewRows Date_parse projects st) st) in Ek.
  assert (Hle : currentPage st = 1 \/ currentPage st <= k).
  { destruct Hk as [H|[k' [E H]]]; [now left|]. right. congruence. }
  unfold pageInRange, click, paginationShown, moreThanOnePage, onLastPage.
  rewrite Ek.
  destruct c as [key|v|t v| |n| | | | ]; intros H.
  - destruct (tableShown Date_parse projects st
              && existsb (SortField_eqb key) headerKeys) eqn:G;
      [|discriminate].
    apply andb_true_iff in G as [_ G]. apply existsb_SortField_In in G.
    injection H as <-. unfold handleSort.
    destruct (SortField_eqb key (sortField st)); simpl;
      repeat split; try lia; try assumption; try (now left).
  - injection H as <-. simpl. repeat split; try lia; try assumption;
      try (now left).
  - destruct (existsb (String.eqb v) (filterOptions projects t));
      [|discriminate].
    injection H as <-. destruct t; simpl;
      repeat split; try lia; try assumption; try (now left).
  - destruct (clearShown Date_parse projects st); [|discriminate].
    injection H as <-. simpl. repeat split; try lia; try assumption;
      try (now left).
  - destruct (tableShown Date_parse projects st && (1 <? k)%Z
              && existsb (Z.eqb n) ITEMS_PER_PAGE_OPTIONS) eqn:G;
      [|discriminate].
    apply andb_true_iff in G as [_ G]. apply existsb_Zeqb_In in G.
    injection H as <-. simpl. repeat split; try lia; try assumption;
      try (now left).
  - destruct (tableShown Date_parse projects st && (1 <? k)%Z
              && negb (currentPage st =? 1)%Z); [|discriminate].
    injection H as <-. simpl. repeat split; try lia; try assumption;
      try (now left).
  - destruct (tableShown Date_parse projects st && (1 <? k)%Z
              && negb (currentPage st =? 1)%Z) eqn:G; [|discriminate].
    apply andb_true_iff in G as [_ G]. apply negb_true_iff in G.
    apply Z.eqb_neq in G.
    injection H as <-. simpl. repeat split; try lia; try assumption.
    right. exists k. split; [exact Ek | lia].
  - destruct (tableShown Date_parse projects st && (1 <? k)%Z
              && negb (currentPage st =? k)%Z) eqn:G; [|discriminate].
    apply andb_true_iff in G as [G1 G2]. apply andb_true_iff in G1 as [_ G1].
    apply negb_true_iff in G2. apply Z.eqb_neq in G2. apply Z.ltb_lt in G1.
    injection H as <-. simpl. repeat split; try lia; try assumption.
    right. exists k. split; [exact Ek | lia].
  - destruct (tableShown Date_parse projects st && (1 <? k)%Z
              && negb (currentPage st =? k)%Z) eqn:G; [|discriminate].
    apply andb_true_iff in G as [G1 _]. apply andb_true_iff in G1 as [_ G1].
    apply Z.ltb_lt in G1.
    injection H as <-. simpl. repeat split; try lia; try assumption.
    right. exists k. split; [exact Ek | lia].
Qed.

Lemma reachable_in_range (st : ViewState) :
  reachable Date_parse projects st -> pageInRange Date_parse projects st.
Proof.
  induction 1 as [|c st st' _ IH Hc].
  - unfold pageInRange. simpl. repeat split; try lia; try tauto.
  - exact (click_keeps_range c st st' IH Hc).
Qed.

Lemma in_range_page_rows (st : ViewState) :
  pageInRange Date_parse projects st ->
  0 < itemsPerPage st /\
  0 <= startIndex st /\
  (viewRows Date_parse projects st <> [] ->
   startIndex st < Z.of_nat (List.length (viewRows Date_parse projects st))) /\
  paginatedProjects (viewRows Date_parse projects st) st
  = firstn (Z.to_nat (itemsPerPage st))
           (skipn (Z.to_nat (startIndex st))
                  (viewRows Date_parse projects st)).
Proof.
  intros [Hpage [Hps [_ Hk]]].
  pose proof (options_positive _ Hps) as Hpos.
  assert (H0 : 0 <= startIndex st) by (unfold startIndex; nia).
  repeat split; try assumption.
  - intros Hne.
    assert (0 < Z.of_nat (List.length (viewRows Date_parse projects st))).
    { destruct (viewRows Date_parse projects st); [congruence | simpl; lia]. }
    unfold startIndex. destruct Hk as [->|[k [Ek Hle]]]; [lia|].
    destruct (Math_ceil_div_spec
                (Z.of_nat (List.length (viewRows Date_parse projects st)))
                (itemsPerPage st) Hpos) as [k' [Ek' Hb]].
    unfold totalPages in Ek. rewrite Ek in Ek'. injection Ek' as <-. nia.
  - unfold paginatedProjects. now apply Array_slice_window; [|lia].
Qed.

(** X13. Whatever the user does with the controls, the current page is
    at least 1, the page size is one of 10, 25, 50 and 100, the sort
    field is one of the eight table columns, and the current page is 1
    or at most the number of pages. *)
Theorem controls_keep_page_in_range (st : ViewState) :
  reachable Date_parse projects st ->
  1 <= currentPage st /\
  In (itemsPerPage st) ITEMS_PER_PAGE_OPTIONS /\
  In (sortField st) headerKeys /\
  (currentPage st = 1 \/
   exists k, totalPages (viewRows Date_parse projects st) st = Some k /\
             currentPage st <= k).
Proof. apply reachable_in_range. Qed.

(** X14. In every state the controls can reach, the page on display
    holds at least one row whenever any project passes the filters, and
    never more rows than the page size. *)
Theorem reachable_page_not_empty (st : ViewState) :
  reachable Date_parse projects st ->
  (viewRows Date_parse projects st <> [] ->
   paginatedProjects (viewRows Date_parse projects st) st <> []) /\
  Z.of_nat (List.length (paginatedProjects (viewRows Date_parse projects st) st))
  <= itemsPerPage st.
Proof.
  intros Hr. apply reachable_in_range in Hr.
  destruct (in_range_page_rows st Hr) as [Hpos [H0 [Hlt E]]].
  rewrite E. split.
  - intros Hne. specialize (Hlt Hne). intros Hnil.
    apply (f_equal (@List.length Project)) in Hnil.
    rewrite length_firstn, length_skipn in Hnil. simpl in Hnil. lia.
  - rewrite length_firstn. lia.
Qed.

(** X15. In every reachable state with rows in the view, the footer
    range Showing from-to counts exactly the rows on display, and lies
    within 1 and the number of rows in the view. *)
Theorem reachable_showing_range (st : ViewState) :
  reachable Date_parse projects st ->
  viewRows Date_parse projects st <> [] ->
  1 <= showingFrom st /\
  showingFrom st <= showingTo (viewRows Date_parse projects st) st /\
  showingTo (viewRows Date_parse projects st) st
  <= Z.of_nat (List.length (viewRows Date_parse projects st)) /\
  showingTo (viewRows Date_parse projects st) st - showingFrom st + 1
  = Z.of_nat
      (List.length (paginatedProjects (viewRows Date_parse projects st) st)).
Proof.
  intros Hr Hne. apply reachable_in_range in Hr.
  destruct (in_range_page_rows st Hr) as [Hpos [H0 [Hlt E]]].
  specialize (Hlt Hne). rewrite E.
  unfold showingFrom, showingTo. rewrite length_firstn, length_skipn. lia.
Qed.

End DashboardFacts.

Lemma sample_reachable :
  reachable Sample.Date_parse [bridgeProject; depotProject]
            (handleSort K_stage initialState).
Proof.
  apply (reach_click Sample.Date_parse [bridgeProject; depotProject]
                     (ClickHeader K_stage) initialState);
    [apply reach_initial | reflexivity].
Qed.

Lemma controls_keep_page_in_range_witness :
  1 <= currentPage (handleSort K_stage initialState) /\
  In (itemsPerPage (handleSort K_stage initialState)) ITEMS_PER_PAGE_OPTIONS.
Proof.
  destruct (controls_keep_page_in_range Sample.Date_parse
              [bridgeProject; depotProject] (handleSort K_stage initialState)
              sample_reachable) as [H1 [H2 _]].
  split; assumption.
Defined.

Lemma reachable_page_not_empty_witness :
  paginatedProjects
    (viewRows Sample.Date_parse [bridgeProject; depotProject]
              (handleSort K_stage initialState))
    (handleSort K_stage initialState) <> [].
Proof.
  apply (reachable_page_not_empty Sample.Date_parse
           [bridgeProject; depotProject] (handleSort K_stage initialState)
           sample_reachable).
  discriminate.
Defined.

Lemma reachable_showing_range_witness :
  showingTo (viewRows Sample.Date_parse [bridgeProject; depotProject]
                      (handleSort K_stage initialState))
            (handleSort K_stage initialState)
  - showingFrom (handleSort K_stage initialState) + 1
  = 2.
Proof.
  assert (Hne : viewRows Sample.Date_parse [bridgeProject; depotProject]
                         (handleSort K_stage initialState) <> [])
    by discriminate.
  destruct (reachable_showing_range Sample.Date_parse
              [bridgeProject; depotProject] (handleSort K_stage initialState)
              sample_reachable Hne) as [_ [_ [_ H]]].
  rewrite H. reflexivity.
Defined.

(** *** Loading the projects *)


(** X17. The handler reaches the database only for a signed-in caller
    with a configured connection string, and only then answers with rows;
    the page takes over the rows of an ok answer, and after any other
    answer it keeps its list and shows the fixed message Failed to fetch
    projects, never the message of the handler. *)
Theorem handler_and_page
        (auth : Api.Outcome (option string)) (DATABASE_URL : option string)
        (select : Api.Outcome (list Project))
        (isRefresh : bool) (st : Loader.DataState) :
  let resp := fst (Api.GET auth DATABASE_URL select) in
  let events := snd (Api.GET auth DATABASE_URL select) in
  (In Api.ReachedDatabase events <->
   exists userId, auth = Api.Returned userId /\ Api.absent userId = false /\
                  Api.absent DATABASE_URL = false) /\
  (Api.ok resp = true <->
   exists rows, In Api.ReachedDatabase events /\ select = Api.Returned rows /\
                Api.body resp = Api.RowsBody rows) /\
  exists r,
    Loader.deliver resp = Some r /\
    (Api.ok resp = true ->
     Api.body resp
     = Api.RowsBody (Loader.projects (Loader.fetchProjects isRefresh r st))) /\
    (Api.ok resp = false ->
     Loader.projects (Loader.fetchProjects isRefresh r st) = Loader.projects st /\
     Loader.error (Loader.fetchProjects isRefresh r st)
     = Some "Failed to fetch projects").
Proof.
  destruct auth as [userId|]; simpl.
  2: { repeat split; try (intros [H|[H|[]]]; discriminate);
       try (intros [u [H _]]; discriminate); try discriminate.
       - intros [rows [[H|[H|[]]] _]]; discriminate.
       - exists Loader.NotOk. repeat split; discriminate. }
  destruct (Api.absent userId) eqn:Hu; simpl.
  { repeat split; try (intros [H|[]]; discriminate); try discriminate.
    - intros [u [H [Hu' _]]]. injection H as <-. congruence.
    - intros [rows [[H|[]] _]]; discriminate.
    - exists Loader.NotOk. repeat split; discriminate. }
  destruct (Api.absent DATABASE_URL) eqn:Hd; simpl.
  { repeat split; try (intros [H|[]]; discriminate); try discriminate.
    - intros [u [_ [_ H]]]. discriminate.
    - intros [rows [[H|[]] _]]; discriminate.
    - exists Loader.NotOk. repeat split; discriminate. }
  destruct select as [rows|]; simpl.
  - repeat split; try discriminate.
    + intros _. exists userId. now repeat split.
    + intros _. now right; left.
    + intros _. exists rows. repeat split. now right; left.
    + exists (Loader.OkJson (inr rows)). repeat split; discriminate.
  - repeat split; try discriminate.
    + intros _. exists userId. now repeat split.
    + intros _. now right; left.
    + intros [rows [_ [H _]]]. discriminate.
    + exists Loader.NotOk. repeat split; discriminate.
Qed.

(** X18. While a refresh is under way the dashboard stays on screen with
    the rows it had; when the refresh fails with a non-empty message the
    whole dashboard gives way to the error panel, although the rows are
    still in the state; a first load shows the skeleton instead. *)
Theorem refresh_and_screen (r : Loader.FetchResult) (st : Loader.DataState) :
  Loader.render true true st = Loader.Dashboard ->
  Loader.render true true (Loader.fetchBegin true st) = Loader.Dashboard /\
  Loader.projects (Loader.fetchBegin true st) = Loader.projects st /\
  Loader.render true true (Loader.fetchBegin false st) = Loader.Skeleton /\
  (forall message,
      Loader.error (Loader.fetchProjects true r st) = Some message ->
      message <> EmptyString ->
      Loader.render true true (Loader.fetchProjects true r st)
      = Loader.ErrorPanel message /\
      Loader.projects (Loader.fetchProjects true r st) = Loader.projects st) /\
  (Loader.error (Loader.fetchProjects true r st) = None ->
   Loader.render true true (Loader.fetchProjects true r st) = Loader.Dashboard).
Proof.
  unfold Loader.render. simpl.
  destruct (Loader.loading st) eqn:Hl; [discriminate|]. intros _.
  repeat split.
  - rename H into He, H0 into Hne.
    destruct r as [t| |[t|data]]; simpl in *; try discriminate;
      injection He as He; rewrite He;
      (destruct message; [contradiction | reflexivity]).
  - rename H into He.
    destruct r as [t| |[t|data]]; simpl in *; try discriminate; reflexivity.
  - intros He. destruct r as [t| |[t|data]]; simpl in *; try discriminate.
    reflexivity.
Qed.

Lemma refresh_and_screen_witness :
  Loader.render true true
    (Loader.fetchProjects true Loader.NotOk
       (Loader.mkDataState [bridgeProject] false None false))
  = Loader.ErrorPanel "Failed to fetch projects".
Proof.
  destruct (refresh_and_screen Loader.NotOk
              (Loader.mkDataState [bridgeProject] false None false) eq_refl)
    as [_ [_ [_ [H _]]]].
  destruct (H "Failed to fetch projects" eq_refl) as [Hr _]; [discriminate|].
  exact Hr.
Defined.

(** *** More on the exports *)

(** X19. The JSON export loses nothing: two project sequences with the
    same export text are the same sequence. *)
Theorem jsonContent_injective (data1 data2 : list Project) :
  jsonContent data1 = jsonContent data2 -> data1 = data2.
Proof.
  intros H.
  assert (H1 : parseProjects (jsonContent data1) = Some data1)
    by (unfold parseProjects; rewrite parse_jsonContent; apply allSome_ofJSON).
  assert (H2 : parseProjects (jsonContent data2) = Some data2)
    by (unfold parseProjects; rewrite parse_jsonContent; apply allSome_ofJSON).
  rewrite H in H1. congruence.
Qed.

Lemma jsonContent_injective_witness : [bridgeProject] = [bridgeProject].
Proof. apply jsonContent_injective. reflexivity. Defined.

(** *** Reading the CSV export back *)

Lemma plain_char (c : ascii) :
  negb (endsPlain c) && negb (Ascii.eqb c JS.dquote) = true ->
  endsPlain c = false /\ Ascii.eqb c JS.dquote = false.
Proof.
  intros H. apply andb_true_iff in H as [H1 H2].
  now apply negb_true_iff in H1; apply negb_true_iff in H2.
Qed.

Lemma endsField_no_quote (rest : string) :
  endsField rest = true -> startsWithQuote rest = false.
Proof.
  destruct rest as [|c rest]; [reflexivity|]. cbn [endsField startsWithQuote].
  destruct c as [[] [] [] [] [] [] [] []]; try discriminate; reflexivity.
Qed.

Lemma readPlain_ok (x rest : string) :
  plainText x = true -> endsField rest = true ->
  readPlain (x ++ rest) = (x, rest).
Proof.
  intros Hx Hrest. induction x as [|c x IH]; cbn [append].
  - destruct rest as [|d rest]; [reflexivity|]. cbn [endsField] in Hrest.
    cbn [readPlain]. now rewrite Hrest.
  - cbn [plainText] in Hx. apply andb_true_iff in Hx as [Hc Hx].
    apply plain_char in Hc as [Hc _]. cbn [readPlain]. now rewrite Hc, IH.
Qed.

Lemma cellReads_plain (x : string) : plainText x = true -> cellReads (x, x).
Proof.
  intros Hx rest Hrest. cbn [fst snd]. unfold readField.
  assert (Hq : startsWithQuote (x ++ rest) = false).
  { destruct x as [|c x]; [now apply endsField_no_quote|].
    cbn [plainText append startsWithQuote] in *.
    apply andb_true_iff in Hx as [Hc _].
    now apply plain_char in Hc. }
  now rewrite Hq, readPlain_ok.
Qed.

Lemma cellReads_csvField (field : string) :
  cellReads (csvField field, JS.or_else field NotSpecified).
Proof.
  intros rest Hrest. cbn [fst snd]. unfold readField.
  assert (Hq : startsWithQuote (csvField field ++ rest) = true)
    by (unfold csvField; rewrite !append_assoc; reflexivity).
  rewrite Hq. apply readQuoted_csvField. now apply endsField_no_quote.
Qed.

Lemma endsRecord_endsField (rest : string) :
  endsRecord rest = true -> endsField rest = true.
Proof.
  destruct rest as [|c rest]; [reflexivity|].
  cbn [endsRecord endsField]. unfold endsPlain.
  intros ->. apply orb_true_r.
Qed.

Lemma readRecord_cells (cells : list (string * string)) :
  forall (cell : string * string) (f : nat) (rest : string),
    Forall cellReads (cell :: cells) ->
    (List.length (cell :: cells) <= f)%nat ->
    endsRecord rest = true ->
    readRecord f (String.concat "," (map fst (cell :: cells)) ++ rest)
    = Some (map snd (cell :: cells), rest).
Proof.
  induction cells as [|c2 cells IH]; intros cell f rest Hall Hf Hrest;
    (destruct f as [|f]; [cbn [List.length] in Hf; lia|]);
    apply Forall_cons_iff in Hall as [Hc Hall]; cbn [map readRecord].
  - rewrite concat_one, (Hc rest) by now apply endsRecord_endsField.
    destruct rest as [|d rest]; [reflexivity|]. simpl in Hrest.
    apply Ascii.eqb_eq in Hrest. subst d. reflexivity.
  - rewrite concat_two, !append_assoc.
    change ("," ++ ?x) with (String "," x).
    rewrite (Hc (String "," _)) by reflexivity.
    change (Ascii.eqb "," ",") with true. cbn iota.
    specialize (IH c2 f rest Hall). cbn [map] in IH.
    rewrite IH; [reflexivity | cbn [List.length] in *; lia | exact Hrest].
Qed.

Lemma readRecords_rows (K : nat) (rows : list (list (string * string))) :
  forall (row : list (string * string)) (f : nat),
    Forall (fun r => r <> [] /\ Forall cellReads r /\
                     (List.length r <= K)%nat) (row :: rows) ->
    (K + List.length (row :: rows) <= f)%nat ->
    readRecords f
      (String.concat JS.nl
         (map (fun r => String.concat "," (map fst r)) (row :: rows)))
    = Some (map (map snd) (row :: rows)).
Proof.
  induction rows as [|r2 rows IH]; intros row f Hall Hf;
    (destruct f as [|f]; [cbn [List.length] in Hf; lia|]);
    apply Forall_cons_iff in Hall as [[Hne [Hc Hk]] Hall];
    (destruct row as [|cell cells]; [congruence|]);
    cbn [map readRecords].
  - rewrite concat_one.
    rewrite <- (append_empty_r (String.concat "," _)).
    change (fst cell :: map fst cells) with (map fst (cell :: cells)).
    rewrite readRecord_cells;
      [reflexivity | exact Hc | cbn [List.length] in *; lia | reflexivity].
  - rewrite concat_two.
    change (fst cell :: map fst cells) with (map fst (cell :: cells)).
    rewrite readRecord_cells;
      [ | exact Hc | cbn [List.length] in *; lia | reflexivity].
    change (JS.nl ++ ?x) with (String JS.newline x).
    cbv beta iota. rewrite Ascii.eqb_refl.
    specialize (IH r2 f Hall). cbn [map] in IH.
    rewrite IH; [reflexivity | cbn [List.length] in *; lia].
Qed.

Lemma plainText_uint (u : Decimal.uint) :
  plainText (NilEmpty.string_of_uint u) = true.
Proof. induction u; simpl; try reflexivity; exact IHu. Qed.

Lemma plainText_Number (n : Z) : plainText (JS.Number_toString n) = true.
Proof.
  unfold JS.Number_toString. destruct n; simpl; try reflexivity;
    apply plainText_uint.
Qed.

Section CsvRoundTrip.

Variable Date_parse : string -> option Z.
Variable toLocaleDateString : Z -> string.
(** The locale renders a date without comma, line feed and double
    quote. *)
Hypothesis locale_plain : forall t, plainText (toLocaleDateString t) = true.

Lemma plainText_dateCell (d : string) :
  plainText (dateCell Date_parse toLocaleDateString d) = true.
Proof.
  unfold dateCell. destruct (JS.isEmpty d || JS.isEmpty (JS.trim d));
    [reflexivity|].
  destruct (Date_parse d); [apply locale_plain | reflexivity].
Qed.

Lemma csvCells_read (p : Project) :
  Forall cellReads (csvCells Date_parse toLocaleDateString p).
Proof.
  unfold csvCells.
  repeat (apply Forall_cons; [first [ apply cellReads_csvField
                                    | apply cellReads_plain;
                                      first [ apply plainText_Number
                                            | apply plainText_dateCell ] ]|]).
  constructor.
Qed.

Lemma header_cells_read :
  Forall cellReads (map (fun h => (h, h)) csvHeaders).
Proof.
  unfold csvHeaders. cbn [map].
  repeat (apply Forall_cons; [apply cellReads_plain; reflexivity|]).
  constructor.
Qed.

Lemma convertToCSV_rows (data : list Project) :
  convertToCSV Date_parse toLocaleDateString data
  = String.concat JS.nl
      (map (fun r => String.concat "," (map fst r))
           (map (fun h => (h, h)) csvHeaders
            :: map (csvCells Date_parse toLocaleDateString) data)).
Proof.
  unfold convertToCSV, JS.join. cbn [map]. f_equal. f_equal.
  rewrite map_map. apply map_ext. intros p. reflexivity.
Qed.

Lemma length_convertToCSV (data : list Project) :
  (9 + List.length data
   <= String.length (convertToCSV Date_parse toLocaleDateString data))%nat.
Proof.
  unfold convertToCSV, JS.join. rewrite concat_cons_sep, length_append.
  pose proof (length_concat_ge 1 EmptyString
                (map (fun y => JS.nl ++ y)
                     (map (csvRow Date_parse toLocaleDateString) data))) as H.
  rewrite !length_map in H.
  assert (H1 : (1 * List.length data
                <= String.length
                     (String.concat EmptyString
                        (map (fun y => JS.nl ++ y)
                             (map (csvRow Date_parse toLocaleDateString) data))))%nat).
  { apply H. intros x Hx. apply in_map_iff in Hx as [y [<- _]]. simpl. lia. }
  change (String.length (String.concat "," csvHeaders)) with 93%nat. lia.
Qed.

(** X20. When the locale renders dates without comma, line feed and
    double quote, a CSV reader gets back from the export the header
    names and, for every project in order, its nine values: the id, the
    seven substituted texts (whatever commas, quotes and line feeds they
    hold) and the date cell. *)
Theorem csv_reads_back (data : list Project) :
  readCSV (convertToCSV Date_parse toLocaleDateString data)
  = Some (csvHeaders
          :: map (csvValues Date_parse toLocaleDateString) data).
Proof.
  unfold readCSV.
  pose proof (length_convertToCSV data) as Hlen.
  rewrite convertToCSV_rows in *.
  rewrite (readRecords_rows 9).
  - cbn [map]. f_equal. f_equal.
    rewrite map_map. apply map_ext. intros p. reflexivity.
  - apply Forall_cons.
    + split; [discriminate|]. split; [apply header_cells_read | simpl; lia].
    + apply Forall_forall. intros r Hr.
      apply in_map_iff in Hr as [p [<- _]].
      split; [discriminate|]. split; [apply csvCells_read | simpl; lia].
  - cbn [List.length]. rewrite length_map. lia.
Qed.

End CsvRoundTrip.

Lemma sample_locale_plain (t : Z) :
  plainText (Sample.toLocaleDateString t) = true.
Proof.
  unfold Sample.toLocaleDateString.
  destruct (Sample.civilFromDays (t / Sample.msPerDay)) as [[y m] d].
  assert (H : forall a b, plainText a = true -> plainText b = true ->
                          plainText (a ++ b) = true).
  { intros a b Ha Hb. induction a as [|c a IH]; simpl in *; [exact Hb|].
    apply andb_true_iff in Ha as [Hc Ha]. rewrite Hc. now apply IH. }
  repeat apply H; try apply plainText_Number; reflexivity.
Qed.

Lemma csv_reads_back_witness :
  readCSV (convertToCSV Sample.Date_parse Sample.toLocaleDateString
                        [bridgeProject])
  = Some [csvHeaders;
          ["1"; "Bridge repair"; "Austin"; "Road"; "Approved"; "Acme Corp";
           "$1,000,000"; "https://example.com/bridge"; "1/5/2024"]].
Proof.
  exact (csv_reads_back Sample.Date_parse Sample.toLocaleDateString
                        sample_locale_plain [bridgeProject]).
Defined.

(** *** Sort header, stage badge, pagination footer *)

(** X21. A click on a column header makes that column the sort field
    and touches no search term, filter or page size; on a new column the
    direction is ascending, and every further click on the same header
    flips the direction, so a third click gives the state of the
    first. *)
Theorem handleSort_toggles (field : SortField) (st : ViewState) :
  sortField (handleSort field st) = field /\
  (field <> sortField st -> sortDirection (handleSort field st) = asc) /\
  sortDirection (handleSort field (handleSort field st))
  = flipDirection (sortDirection (handleSort field st)) /\
  handleSort field (handleSort field (handleSort field st))
  = handleSort field st /\
  forall projects,
    filtered projects (handleSort field st) = filtered projects st.
Proof.
  destruct st as [term sf sd page size fs ft fo].
  destruct field, sf, sd; simpl; repeat split; congruence.
Qed.

Lemma includes_ci (needle stage pre mid post : string) :
  stage = pre ++ mid ++ post -> JS.toLowerCase mid = needle ->
  JS.includes (JS.toLowerCase stage) needle = true.
Proof.
  intros -> <-. apply includes_iff.
  exists (JS.toLowerCase pre), (JS.toLowerCase post).
  now rewrite !toLowerCase_append.
Qed.

(** X22. A stage that holds the word approved in any letter case gets
    the approved badge, on screen and in the printable report alike,
    even when it also holds proposed; and the report marks a stage as
    approved exactly when the screen does. *)
Theorem stage_badge_approved (stage : string) :
  (forall pre mid post,
      stage = pre ++ mid ++ post -> JS.toLowerCase mid = "approved" ->
      screenStageClass stage = "bg-green-100 text-green-800" /\
      stageClass stage = "stage-approved") /\
  (stageClass stage = "stage-approved"
   <-> screenStageClass stage = "bg-green-100 text-green-800") /\
  (stageClass stage = "stage-proposed" ->
   screenStageClass stage = "bg-yellow-100 text-yellow-800").
Proof.
  assert (Ho : JS.or_else stage EmptyString = stage)
    by (unfold JS.or_else; now destruct stage).
  unfold stageClass, screenStageClass. rewrite Ho.
  split.
  { intros pre mid post E Hm.
    now rewrite (includes_ci "approved" stage pre mid post E Hm). }
  destruct (JS.includes (JS.toLowerCase stage) "approved").
  { repeat split; try reflexivity; discriminate. }
  destruct (JS.includes (JS.toLowerCase stage) "proposed"); simpl.
  { repeat split; try reflexivity; discriminate. }
  destruct (JS.includes (JS.toLowerCase stage) "planning"); simpl;
    [repeat split; discriminate|].
  destruct (JS.includes (JS.toLowerCase stage) "completed");
    repeat split; discriminate.
Qed.

Lemma stage_badge_approved_witness :
  stageClass "Proposed, then APPROVED" = "stage-approved".
Proof.
  destruct (stage_badge_approved "Proposed, then APPROVED") as [H _].
  destruct (H "Proposed, then " "APPROVED" EmptyString) as [_ Hx];
    [reflexivity | reflexivity | exact Hx].
Defined.

(** X23. With a positive page size the pagination footer, which also
    holds the page-size select, is rendered exactly when the view has
    more rows than fit on one page. *)
Theorem pagination_shown_iff
        (Date_parse : string -> option Z) (projects : list Project)
        (st : ViewState) :
  0 < itemsPerPage st ->
  (paginationShown Date_parse projects st = true <->
   itemsPerPage st < Z.of_nat (List.length (viewRows Date_parse projects st))).
Proof.
  intros Hps. unfold paginationShown, tableShown, moreThanOnePage.
  destruct (Math_ceil_div_spec
              (Z.of_nat (List.length (viewRows Date_parse projects st)))
              (itemsPerPage st) Hps) as [k [Ek Hb]].
  fold (totalPages (viewRows Date_parse projects st) st) in Ek.
  rewrite Ek, andb_true_iff, negb_true_iff, Nat.eqb_neq, Z.ltb_lt.
  split; [intros [_ H] | intros H; split]; nia.
Qed.

Lemma pagination_shown_iff_witness :
  paginationShown Sample.Date_parse [bridgeProject; depotProject] initialState
  = false.
Proof.
  destruct (pagination_shown_iff Sample.Date_parse
              [bridgeProject; depotProject] initialState) as [H _];
    [simpl; lia|].
  destruct (paginationShown Sample.Date_parse [bridgeProject; depotProject]
                            initialState); [|reflexivity].
  specialize (H eq_refl). simpl in H. lia.
Defined.
